(** * Comet Edge Proxy: the edge handler and the client URL utilities

    A shallow embedding of [api/proxy.js] (the edge function with its
    three rewriter handlers) and of the [URLUtils] object of
    [public/cep.js], together with the properties of the proxy that the
    specification states; then of the theme, status and cache functions
    of [public/cep.js] and of the listeners of [public/sw-handler.js],
    with the properties that the code itself shows.

    Strings are JavaScript strings: sequences of UTF-16 code units.  The
    host functions the code calls ([encodeURIComponent],
    [decodeURIComponent], [String.prototype.startsWith], [includes],
    [replace], the [Headers] class, the streaming rewriter) are modelled
    after their standards; what the code gets from its surroundings
    ([fetch], the URL parser) is a parameter. *)

From Stdlib Require Import ZArith List Bool String Ascii Lia.
Import ListNotations.

Local Open Scope Z_scope.

(* ================================================================== *)
(** * JavaScript strings and completions *)
(* ================================================================== *)

Module JS.

(** A string is its list of UTF-16 code units, each in [0, 65536). *)
Definition jsstring := list Z.

(** A literal of the source, every character of which is ASCII. *)
Definition lit (s : string) : jsstring :=
  List.map (fun a => Z.of_nat (nat_of_ascii a)) (list_ascii_of_string s).

(** The quotation mark, which the literals of this file cannot hold. *)
Definition dq : jsstring := [34].

(** The line feed of the multi-line template literal. *)
Definition nl : jsstring := [10].

Fixpoint eqb (s t : jsstring) : bool :=
  match s, t with
  | [], [] => true
  | c :: s', d :: t' => (c =? d) && eqb s' t'
  | _, _ => false
  end.

(** [s.startsWith(p)] *)
Fixpoint startsWith (s p : jsstring) : bool :=
  match p, s with
  | [], _ => true
  | d :: p', c :: s' => (c =? d) && startsWith s' p'
  | _ :: _, [] => false
  end.

(** [s.includes(p)] *)
Fixpoint includes (s p : jsstring) : bool :=
  startsWith s p ||
  match s with
  | [] => false
  | _ :: s' => includes s' p
  end.

(** [s.replace(p, r)] with a string pattern and a replacement without
    dollar patterns: the first occurrence of [p] only. *)
Fixpoint replace (s p r : jsstring) : jsstring :=
  if startsWith s p then r ++ skipn (List.length p) s
  else match s with
       | [] => []
       | c :: s' => c :: replace s' p r
       end.

(** ASCII lower case, as header names are compared. *)
Definition lower (c : Z) : Z :=
  if (65 <=? c) && (c <=? 90) then c + 32 else c.

Definition eqb_nocase (s t : jsstring) : bool :=
  eqb (List.map lower s) (List.map lower t).

(** Truthiness of a string: only the empty string is falsy. *)
Definition truthy (s : jsstring) : bool :=
  match s with [] => false | _ :: _ => true end.

(** Errors carry their constructor and their message. *)
Inductive ErrorName := URIError | TypeError | RangeError | OtherError.

Record Error := mkError { name : ErrorName; message : jsstring }.

(** The completion of an expression: a value, or an exception. *)
Inductive completion (A : Type) :=
| Normal (a : A)
| Throw (e : Error).
Arguments Normal {A} a.
Arguments Throw {A} e.

Definition bind {A B} (c : completion A) (k : A -> completion B)
  : completion B :=
  match c with
  | Normal a => k a
  | Throw e => Throw e
  end.

(** The values a configuration flag can hold. *)
Inductive Value :=
| Undefined
| Null
| Boolean (b : bool)
| Number (z : Z)
| Str (s : jsstring).

(** [v !== false] *)
Definition strict_ne_false (v : Value) : bool :=
  match v with
  | Boolean false => false
  | _ => true
  end.

End JS.

Import JS.

Notation "x <- c ;; k" := (JS.bind c (fun x => k))
  (at level 61, c at next level, right associativity).

(* ================================================================== *)
(** * [encodeURIComponent] and [decodeURIComponent] (ECMA-262, 19.2.6) *)
(* ================================================================== *)

Module URI.

Definition malformed : Error := mkError URIError (lit "URI malformed").

Definition is_alnum (c : Z) : bool :=
  ((48 <=? c) && (c <=? 57)) || ((65 <=? c) && (c <=? 90))
  || ((97 <=? c) && (c <=? 122)).

(** The characters [encodeURIComponent] leaves alone: letters, digits
    and the marks [- _ . ! ~ * ' ( )]. *)
Definition unescaped (c : Z) : bool :=
  is_alnum c || existsb (Z.eqb c) (lit "-_.!~*'()").

Definition is_lead (c : Z) : bool := (55296 <=? c) && (c <=? 56319).
Definition is_trail (c : Z) : bool := (56320 <=? c) && (c <=? 57343).

(** The code point of a surrogate pair. *)
Definition pair_code_point (hi lo : Z) : Z :=
  (hi - 55296) * 1024 + (lo - 56320) + 65536.

(** The UTF-8 octets of a code point. *)
Definition utf8_octets (cp : Z) : list Z :=
  if cp <? 128 then [cp]
  else if cp <? 2048 then [192 + cp / 64; 128 + cp mod 64]
  else if cp <? 65536 then
    [224 + cp / 4096; 128 + (cp / 64) mod 64; 128 + cp mod 64]
  else
    [240 + cp / 262144; 128 + (cp / 4096) mod 64;
     128 + (cp / 64) mod 64; 128 + cp mod 64].

(** An upper-case hexadecimal digit. *)
Definition hex_digit (d : Z) : Z := if d <? 10 then 48 + d else 55 + d.

(** [%XX] for one octet. *)
Definition escape_octet (b : Z) : jsstring :=
  [37; hex_digit (b / 16); hex_digit (b mod 16)].

Definition escape_octets (bs : list Z) : jsstring :=
  flat_map escape_octet bs.

(** Encode: an unescaped unit is copied; any other code point is
    written as the escapes of its UTF-8 octets; a surrogate that is not
    half of a pair throws a URIError. *)
Fixpoint encodeURIComponent (s : jsstring) : completion jsstring :=
  match s with
  | [] => Normal []
  | c :: rest =>
    if unescaped c then
      r <- encodeURIComponent rest ;; Normal (c :: r)
    else if is_lead c then
      match rest with
      | lo :: rest' =>
        if is_trail lo then
          r <- encodeURIComponent rest' ;;
          Normal (escape_octets (utf8_octets (pair_code_point c lo)) ++ r)
        else Throw malformed
      | [] => Throw malformed
      end
    else if is_trail c then Throw malformed
    else
      r <- encodeURIComponent rest ;;
      Normal (escape_octets (utf8_octets c) ++ r)
  end.

Definition hex_value (c : Z) : option Z :=
  if (48 <=? c) && (c <=? 57) then Some (c - 48)
  else if (65 <=? c) && (c <=? 70) then Some (c - 55)
  else if (97 <=? c) && (c <=? 102) then Some (c - 87)
  else None.

(** Reads one escape [%XX] from the front of [s]. *)
Definition read_octet (s : jsstring) : option (Z * jsstring) :=
  match s with
  | p :: h :: l :: rest =>
    if p =? 37 then
      match hex_value h, hex_value l with
      | Some a, Some b => Some (16 * a + b, rest)
      | _, _ => None
      end
    else None
  | _ => None
  end.

Fixpoint read_octets (n : nat) (s : jsstring)
  : option (list Z * jsstring) :=
  match n with
  | O => Some ([], s)
  | S n' =>
    match read_octet s with
    | Some (b, r) =>
      match read_octets n' r with
      | Some (bs, r') => Some (b :: bs, r')
      | None => None
      end
    | None => None
    end
  end.

(** The number of leading 1 bits of an octet (5 stands for "five or
    more"). *)
Definition leading_ones (b : Z) : nat :=
  if b <? 128 then 0
  else if b <? 192 then 1
  else if b <? 224 then 2
  else if b <? 240 then 3
  else if b <? 248 then 4
  else 5.

Definition is_continuation (b : Z) : bool := (128 <=? b) && (b <? 192).

(** The code point of a well-formed UTF-8 sequence: continuation octets
    in [80..BF], no overlong form, no surrogate, nothing above
    [10FFFF]. *)
Definition utf8_code_point (bs : list Z) : option Z :=
  match bs with
  | [b1; b2] =>
    let cp := (b1 - 192) * 64 + (b2 - 128) in
    if is_continuation b2 && (128 <=? cp) then Some cp else None
  | [b1; b2; b3] =>
    let cp := (b1 - 224) * 4096 + (b2 - 128) * 64 + (b3 - 128) in
    if is_continuation b2 && is_continuation b3 && (2048 <=? cp)
       && negb ((55296 <=? cp) && (cp <=? 57343))
    then Some cp else None
  | [b1; b2; b3; b4] =>
    let cp := (b1 - 240) * 262144 + (b2 - 128) * 4096
              + (b3 - 128) * 64 + (b4 - 128) in
    if is_continuation b2 && is_continuation b3 && is_continuation b4
       && (65536 <=? cp) && (cp <=? 1114111)
    then Some cp else None
  | _ => None
  end.

(** The UTF-16 code units of a code point. *)
Definition utf16_units (cp : Z) : jsstring :=
  if cp <? 65536 then [cp]
  else [55296 + (cp - 65536) / 1024; 56320 + (cp - 65536) mod 1024].

(** Decode, one escape sequence or one plain unit per step. *)
Fixpoint decode_units (fuel : nat) (s : jsstring) : completion jsstring :=
  match s with
  | [] => Normal []
  | c :: rest =>
    match fuel with
    | O => Throw malformed
    | S fuel' =>
      if negb (c =? 37) then
        r <- decode_units fuel' rest ;; Normal (c :: r)
      else
        match read_octet s with
        | None => Throw malformed
        | Some (b, rest1) =>
          match leading_ones b with
          | O => r <- decode_units fuel' rest1 ;; Normal (b :: r)
          | S O => Throw malformed
          | S (S (S (S (S _)))) => Throw malformed
          | S m =>
            match read_octets m rest1 with
            | None => Throw malformed
            | Some (tail, rest2) =>
              match utf8_code_point (b :: tail) with
              | None => Throw malformed
              | Some cp =>
                r <- decode_units fuel' rest2 ;;
                Normal (utf16_units cp ++ r)
              end
            end
          end
        end
    end
  end.

(** Every step consumes a unit, so the length of the input is fuel
    enough. *)
Definition decodeURIComponent (s : jsstring) : completion jsstring :=
  decode_units (List.length s) s.

End URI.

(* ================================================================== *)
(** * The [Headers] class and responses (Fetch standard) *)
(* ================================================================== *)

Module Headers.

(** A header list: names compare without regard to ASCII case. *)
Definition t := list (jsstring * jsstring).

Definition named (name : jsstring) (kv : jsstring * jsstring) : bool :=
  eqb_nocase (fst kv) name.

(** [h.get(name)]: [None] is the [null] of an absent header; several
    values are joined with a comma and a space. *)
Definition get (h : t) (name : jsstring) : option jsstring :=
  match filter (named name) h with
  | [] => None
  | kv :: more =>
    Some (fold_left (fun acc kv' => acc ++ lit ", " ++ snd kv') more (snd kv))
  end.

Definition has (h : t) (name : jsstring) : bool := existsb (named name) h.

(** [h.set(name, value)]: the first header of that name takes the
    value and the others go; without one the header is appended. *)
Fixpoint set (h : t) (name value : jsstring) : t :=
  match h with
  | [] => [(name, value)]
  | kv :: h' =>
    if named name kv
    then (fst kv, value) :: filter (fun kv' => negb (named name kv')) h'
    else kv :: set h' name value
  end.

End Headers.

(** [x || d] on a string that may be [null]. *)
Definition or_else (x : option jsstring) (d : jsstring) : jsstring :=
  match x with
  | Some s => if truthy s then s else d
  | None => d
  end.

(* ================================================================== *)
(** * The streaming rewriter ([HTMLRewriter]) *)
(* ================================================================== *)

Module HTMLRewriter.

(** The document as the tokenizer reads it.  [Raw] is content that a
    handler inserted with [{ html: true }]; it is not parsed again.  Tag
    and attribute names are in lower case, as the tokenizer delivers
    them. *)
#[local] Unset Elimination Schemes.
Inductive node :=
| Text (s : jsstring)
| Raw (html : jsstring)
| Elem (tag : jsstring) (attrs : list (jsstring * jsstring))
       (children : list node).
#[local] Set Elimination Schemes.

(** The element object a handler receives at a start tag: the
    attributes it may read and write, and the content it appends, which
    goes after the last child. *)
Record Element := mkElement {
  tagName : jsstring;
  attributes : list (jsstring * jsstring);
  appended : list jsstring
}.

(** [element.getAttribute(name)]; [None] is [null]. *)
Fixpoint lookup (attrs : list (jsstring * jsstring)) (name : jsstring)
  : option jsstring :=
  match attrs with
  | [] => None
  | (k, v) :: attrs' => if eqb k name then Some v else lookup attrs' name
  end.

Definition getAttribute (el : Element) (name : jsstring) : option jsstring :=
  lookup (attributes el) name.

(** [element.setAttribute(name, value)]: in place when the attribute
    exists, at the end otherwise. *)
Fixpoint update (attrs : list (jsstring * jsstring)) (name value : jsstring)
  : list (jsstring * jsstring) :=
  match attrs with
  | [] => [(name, value)]
  | (k, v) :: attrs' =>
    if eqb k name then (k, value) :: attrs'
    else (k, v) :: update attrs' name value
  end.

Definition setAttribute (el : Element) (name value : jsstring) : Element :=
  mkElement (tagName el) (update (attributes el) name value) (appended el).

(** [element.append(content, { html: true })] *)
Definition append (el : Element) (content : jsstring) : Element :=
  mkElement (tagName el) (attributes el) (appended el ++ [content]).

(** A selector of the form [a, link, script]: a list of tag names. *)
Definition selector := list jsstring.

Record registration := mkRegistration {
  sel : selector;
  run : Element -> completion Element
}.

Definition t := list registration.

Definition empty : t := [].

(** [rewriter.on(selector, handler)] *)
Definition on (rw : t) (s : selector) (h : Element -> completion Element)
  : t :=
  rw ++ [mkRegistration s h].

Definition selects (s : selector) (tag : jsstring) : bool :=
  existsb (eqb tag) s.

(** The handlers that select the element run in the order of their
    registration. *)
Fixpoint dispatch (rw : t) (el : Element) : completion Element :=
  match rw with
  | [] => Normal el
  | r :: rw' =>
    if selects (sel r) (tagName el)
    then el' <- run r el ;; dispatch rw' el'
    else dispatch rw' el
  end.

Fixpoint transform_node (rw : t) (n : node) : completion node :=
  match n with
  | Text s => Normal (Text s)
  | Raw h => Normal (Raw h)
  | Elem tag attrs children =>
    el <- dispatch rw (mkElement tag attrs []) ;;
    children' <-
      (fix go (l : list node) : completion (list node) :=
         match l with
         | [] => Normal []
         | k :: l' =>
           k' <- transform_node rw k ;;
           r <- go l' ;;
           Normal (k' :: r)
         end) children ;;
    Normal (Elem tag (attributes el) (children' ++ List.map Raw (appended el)))
  end.

Fixpoint transform_nodes (rw : t) (l : list node) : completion (list node) :=
  match l with
  | [] => Normal []
  | k :: l' =>
    k' <- transform_node rw k ;;
    r <- transform_nodes rw l' ;;
    Normal (k' :: r)
  end.

End HTMLRewriter.

Import HTMLRewriter.

(** A body is the stream of nodes the tokenizer reads from it; text
    without markup, an error message for one, is a single text node.  A
    stream can fail before its end. *)
Inductive Body :=
| Stream (d : list node)
| Errored (e : Error).

Record Response := mkResponse {
  status : Z;
  headers : Headers.t;
  body : Body
}.

(** [new Response(text, { status, headers })]: a string body brings its
    content type when the headers name none. *)
Definition Response_of_text (text : jsstring) (st : Z) (init : Headers.t)
  : Response :=
  mkResponse st
    (if Headers.has init (lit "content-type") then init
     else init ++ [(lit "content-type", lit "text/plain;charset=UTF-8")])
    (Stream [Text text]).

(** [new Response(body, { status, headers })] with the body of another
    response: the constructor throws a RangeError when the status is
    outside 200..599 (Fetch standard; the wording of the message is the
    host's).  A response whose status allows no body (204, 205, 304) has
    none: it is read here as the empty stream, for which the constructor
    does not throw. *)
Definition status_ok (st : Z) : bool := (200 <=? st) && (st <=? 599).

Definition status_out_of_range : Error :=
  mkError RangeError
    (lit "init[" ++ dq ++ lit "status" ++ dq
     ++ lit "] must be in the range of 200 to 599, inclusive.").

Definition new_Response (b : Body) (st : Z) (init : Headers.t)
  : completion Response :=
  if status_ok st then Normal (mkResponse st init b)
  else Throw status_out_of_range.

(** [rewriter.transform(response)]: status and headers stay; a handler
    that throws breaks the stream. *)
Definition transform (rw : HTMLRewriter.t) (r : Response) : Response :=
  mkResponse (status r) (headers r)
    match body r with
    | Stream d =>
      match transform_nodes rw d with
      | Normal d' => Stream d'
      | Throw e => Errored e
      end
    | Errored e => Errored e
    end.

(* ================================================================== *)
(** * [api/proxy.js] *)
(* ================================================================== *)

(** The configuration object of [getEdgeConfig]. *)
Record DevFeatures := mkDevFeatures {
  eruda : Value;
  customTheme : Value
}.

Record Config := mkConfig {
  DEV_FEATURES : option DevFeatures;
  ENCODING_KEY : jsstring;
  BLOCKLIST : list jsstring
}.

(** [this.config.DEV_FEATURES || {}]: a property that the object lacks
    reads as [undefined]. *)
Definition devFeatures (config : Config) : DevFeatures :=
  match DEV_FEATURES config with
  | Some d => d
  | None => mkDevFeatures Undefined Undefined
  end.

Module ElementHandler.

Definition attrs : list jsstring :=
  [lit "href"; lit "src"; lit "action"; lit "data"].

Definition rewriteUrl (url : jsstring) : completion jsstring :=
  if negb (truthy url) || startsWith url (lit "data:")
     || startsWith url (lit "javascript:")
  then Normal url
  else
    encoded <- URI.encodeURIComponent url ;;
    Normal (lit "/proxy/" ++ encoded).

(** The body of the [forEach] callback. *)
Definition rewrite_attribute (el : Element) (attr : jsstring)
  : completion Element :=
  match getAttribute el attr with
  | Some value =>
    if truthy value
    then url <- rewriteUrl value ;; Normal (setAttribute el attr url)
    else Normal el
  | None => Normal el
  end.

Fixpoint forEach (names : list jsstring) (el : Element)
  : completion Element :=
  match names with
  | [] => Normal el
  | attr :: names' =>
    el' <- rewrite_attribute el attr ;; forEach names' el'
  end.

Definition element (config : Config) (el : Element) : completion Element :=
  forEach attrs el.

End ElementHandler.

Module HeadHandler.

Definition base_script : jsstring :=
  lit "<script src=" ++ dq ++ lit "/cep.js" ++ dq ++ lit "></script>".

Definition eruda_script : jsstring :=
  lit "<script src=" ++ dq
  ++ lit "https://cdn.jsdelivr.net/npm/eruda@3.0.1/eruda.min.js"
  ++ dq ++ lit "></script>".

Definition element (config : Config) (el : Element) : completion Element :=
  let devFeatures := devFeatures config in
  let el := append el base_script in
  if strict_ne_false (eruda devFeatures)
  then Normal (append el eruda_script)
  else Normal el.

End HeadHandler.

Module BodyHandler.

(** The bug emoji U+1F41B, a surrogate pair. *)
Definition bug : jsstring := [55357; 56347].

Definition trigger : jsstring :=
  lit "<div id=" ++ dq ++ lit "cep-debug-trigger" ++ dq ++ lit " style=" ++ dq
  ++ lit "position:fixed;bottom:10px;right:10px;z-index:999999;" ++ dq
  ++ lit ">" ++ nl
  ++ lit "          <button onclick=" ++ dq
  ++ lit "window.comet && window.comet.activateEruda()" ++ dq ++ lit " " ++ nl
  ++ lit "                  style=" ++ dq
  ++ lit "width:40px;height:40px;border-radius:50%;background:#f44336;color:white;border:none;cursor:pointer;box-shadow:0 2px 10px rgba(0,0,0,0.3);font-size:20px;"
  ++ dq ++ lit ">" ++ nl
  ++ lit "            " ++ bug ++ nl
  ++ lit "          </button>" ++ nl
  ++ lit "        </div>".

Definition element (config : Config) (el : Element) : completion Element :=
  let devFeatures := devFeatures config in
  if strict_ne_false (eruda devFeatures)
  then Normal (append el trigger)
  else Normal el.

End BodyHandler.

(** What the handler does to the world, in order. *)
Inductive effect :=
| Fetch (url userAgent : jsstring)
| ConsoleError (label : jsstring) (e : Error).

(** An asynchronous function: the effects it performed and how it
    completed (a rejected promise is a [Throw]). *)
Definition async (A : Type) : Type := list effect * completion A.

Definition ret {A} (a : A) : async A := ([], Normal a).

Definition await {A B} (m : async A) (k : A -> async B) : async B :=
  match m with
  | (tr, Normal a) => let (tr', r) := k a in (tr ++ tr', r)
  | (tr, Throw e) => (tr, Throw e)
  end.

Definition try_catch {A} (m : async A) (handle : Error -> async A) : async A :=
  match m with
  | (tr, Throw e) => let (tr', r) := handle e in (tr ++ tr', r)
  | (tr, Normal a) => (tr, Normal a)
  end.

Definition perform (e : effect) : async unit := ([e], Normal tt).

Definition lift {A} (c : completion A) : async A := ([], c).

Notation "x <~ m ;; k" := (await m (fun x => k))
  (at level 61, m at next level, right associativity).

(** The inbound request: the path of [new URL(req.url)] and the
    [user-agent] header. *)
Record Request := mkRequest {
  pathname : jsstring;
  user_agent : option jsstring
}.

Definition getEdgeConfig : async Config :=
  try_catch
    (ret (mkConfig
            (Some (mkDevFeatures (Boolean true) (Boolean false)))
            (lit "comet-proxy-v1")
            []))
    (fun error =>
       _ <~ perform (ConsoleError (lit "Edge Config error:") error) ;;
       ret (mkConfig
              (Some (mkDevFeatures (Boolean true) Undefined))
              (lit "comet-proxy-v1")
              [])).

(** The rewriter the handler builds for an HTML response. *)
Definition rewriter (edgeConfig : Config) : HTMLRewriter.t :=
  on (on (on HTMLRewriter.empty
            [lit "head"] (HeadHandler.element edgeConfig))
         [lit "body"] (BodyHandler.element edgeConfig))
     [lit "a"; lit "link"; lit "script"; lit "img"; lit "iframe"; lit "form"]
     (ElementHandler.element edgeConfig).

Section Handler.

(** The surroundings: [fetch(url, { headers: { 'User-Agent': ua } })]
    resolves with the upstream response or rejects. *)
Variable fetch : jsstring -> jsstring -> completion Response.

Definition do_fetch (url ua : jsstring) : async Response :=
  _ <~ perform (Fetch url ua) ;; lift (fetch url ua).

(** The handler over the way the configuration is loaded;
    [handler] below loads it with [getEdgeConfig], as the source
    does. *)
Definition handler_with (loadConfig : async Config) (req : Request)
  : async Response :=
  let targetUrl := replace (pathname req) (lit "/proxy/") [] in
  decodedUrl <~ lift (URI.decodeURIComponent targetUrl) ;;
  if negb (truthy decodedUrl) then
    ret (Response_of_text (lit "Missing target URL") 400 [])
  else
    try_catch
      (edgeConfig <~ loadConfig ;;
       targetResponse <~
         do_fetch decodedUrl (or_else (user_agent req) (lit "Mozilla/5.0")) ;;
       let contentType :=
         or_else (Headers.get (headers targetResponse) (lit "content-type")) []
       in
       if negb (includes contentType (lit "text/html")) then
         ret targetResponse
       else
         let transformedResponse :=
           transform (rewriter edgeConfig) targetResponse in
         let headers := headers transformedResponse in
         let headers :=
           Headers.set headers (lit "X-Proxied-By") (lit "Comet-Edge-Proxy") in
         let headers :=
           Headers.set headers (lit "Access-Control-Allow-Origin") (lit "*") in
         lift (new_Response (body transformedResponse)
                            (status transformedResponse) headers))
      (fun error =>
         _ <~ perform (ConsoleError (lit "Proxy error:") error) ;;
         ret (Response_of_text (lit "Proxy Error: " ++ message error) 500
                               [(lit "Content-Type", lit "text/plain")])).

Definition handler (req : Request) : async Response :=
  handler_with getEdgeConfig req.

End Handler.

(* ================================================================== *)
(** * [public/cep.js]: the [URLUtils] object *)
(* ================================================================== *)

Module URLUtils.

Definition proxyEndpoint : jsstring := lit "/proxy/".

Section Client.

(** [new URL(url, window.location.origin).href]: the URL parser of
    the browser, which throws a TypeError on what it cannot parse.
    (The warnings the client logs are left out.) *)
Variable href : jsstring -> completion jsstring.

Definition encode (url : jsstring) : jsstring :=
  match (absolute <- href url ;; URI.encodeURIComponent absolute) with
  | Normal encoded => encoded
  | Throw e => url
  end.

Definition decode (encoded : jsstring) : jsstring :=
  match URI.decodeURIComponent encoded with
  | Normal url => url
  | Throw e => encoded
  end.

Definition rewrite (url : jsstring) : jsstring :=
  if negb (truthy url) || startsWith url (lit "data:")
     || startsWith url (lit "javascript:") || startsWith url (lit "blob:")
  then url
  else proxyEndpoint ++ encode url.

End Client.

End URLUtils.

(* ================================================================== *)
(** * Well-formed strings *)
(* ================================================================== *)

(** A string is well formed when every surrogate in it is half of a pair:
    it is the UTF-16 form of a sequence of Unicode scalar values. *)
Fixpoint well_formed (s : jsstring) : bool :=
  match s with
  | [] => true
  | c :: rest =>
    if URI.is_lead c then
      match rest with
      | lo :: rest' => URI.is_trail lo && well_formed rest'
      | [] => false
      end
    else (0 <=? c) && (c <? 65536) && negb (URI.is_trail c) && well_formed rest
  end.

(** The scalar values: the code points outside the surrogate range. *)
Definition scalar (cp : Z) : Prop :=
  0 <= cp < 1114112 /\ ~ (55296 <= cp <= 57343).

(** The handler's test for an HTML response:
    [(headers.get('content-type') || '').includes('text/html')]. *)
Definition declares_html (r : Response) : bool :=
  includes (or_else (Headers.get (headers r) (lit "content-type")) [])
           (lit "text/html").

(** The "HTML media type" of the specification, which this definition
    follows (the handler's own test is [declares_html] above): the essence
    of the content type, that is the text before the first semicolon,
    without the white space around it and in lower case, is [text/html]. *)
Definition is_space (c : Z) : bool :=
  (c =? 32) || (c =? 9) || (c =? 10) || (c =? 13).

Fixpoint until_semicolon (s : jsstring) : jsstring :=
  match s with
  | [] => []
  | c :: s' => if c =? 59 then [] else c :: until_semicolon s'
  end.

Fixpoint drop_spaces (s : jsstring) : jsstring :=
  match s with
  | [] => []
  | c :: s' => if is_space c then drop_spaces s' else s
  end.

Definition essence (contentType : jsstring) : jsstring :=
  List.map lower
    (rev (drop_spaces (rev (drop_spaces (until_semicolon contentType))))).

Definition spec_html_media_type (contentType : jsstring) : bool :=
  eqb (essence contentType) (lit "text/html").

(** The user agent the handler forwards. *)
Definition forwarded_agent (req : Request) : jsstring :=
  or_else (user_agent req) (lit "Mozilla/5.0").

(** The target of a request as the handler computes it. *)
Definition target (req : Request) : completion jsstring :=
  URI.decodeURIComponent (replace (pathname req) (lit "/proxy/") []).

(** Both headers the proxy adds are on the response. *)
Definition carries_proxy_headers (r : Response) : Prop :=
  Headers.get (headers r) (lit "X-Proxied-By") = Some (lit "Comet-Edge-Proxy")
  /\ Headers.get (headers r) (lit "Access-Control-Allow-Origin")
     = Some (lit "*").

(** The tags the attribute rewriter is registered for. *)
Definition rewritten_tags : selector :=
  [lit "a"; lit "link"; lit "script"; lit "img"; lit "iframe"; lit "form"].

(** No attribute before position [i] has the name [k]: the attribute at
    [i] is the one [getAttribute] and [setAttribute] reach. *)
Definition first_named (attrs : list (jsstring * jsstring)) (i : nat)
           (k : jsstring) : Prop :=
  ~ In k (List.map fst (firstn i attrs)).

(** How often the raw markup [h] occurs in a document, and how many
    elements of a tag it has, at any depth. *)
Fixpoint count_raw (h : jsstring) (n : node) : nat :=
  match n with
  | Text _ => 0
  | Raw h' => if eqb h' h then 1 else 0
  | Elem _ _ children =>
    (fix go (l : list node) : nat :=
       match l with
       | [] => 0
       | k :: l' => count_raw h k + go l'
       end) children
  end%nat.

Fixpoint count_raws (h : jsstring) (l : list node) : nat :=
  match l with
  | [] => 0
  | k :: l' => count_raw h k + count_raws h l'
  end%nat.

Fixpoint count_elem (tag : jsstring) (n : node) : nat :=
  match n with
  | Text _ => 0
  | Raw _ => 0
  | Elem t _ children =>
    (if eqb t tag then 1 else 0) +
    (fix go (l : list node) : nat :=
       match l with
       | [] => 0
       | k :: l' => count_elem tag k + go l'
       end) children
  end%nat.

Fixpoint count_elems (tag : jsstring) (l : list node) : nat :=
  match l with
  | [] => 0
  | k :: l' => count_elem tag k + count_elems tag l'
  end%nat.

(** [n] copies of the markup follow when the flag is on. *)
Definition when (flag : bool) (n : nat) : nat := if flag then n else 0%nat.

(** The debug flag as both handlers read it. *)
Definition debug_enabled (config : Config) : bool :=
  strict_ne_false (eruda (devFeatures config)).

(** [attrs'] is [attrs] with the value of the first attribute of each
    name in [names] replaced by its [rewriteUrl], and nothing else
    changed: the same names at the same positions. *)
Definition rewritten_by (names : list jsstring)
           (attrs attrs' : list (jsstring * jsstring)) : Prop :=
  List.map fst attrs' = List.map fst attrs
  /\ forall i k v,
       nth_error attrs i = Some (k, v) ->
       exists v',
         nth_error attrs' i = Some (k, v')
         /\ (In k names -> first_named attrs i k ->
             ElementHandler.rewriteUrl v = Normal v')
         /\ (~ (In k names /\ first_named attrs i k) -> v' = v).

(** Every attribute value is a well-formed string, as the values are
    that the tokenizer decodes from the bytes of a document. *)
Definition values_well_formed (attrs : list (jsstring * jsstring)) : bool :=
  forallb (fun kv => well_formed (snd kv)) attrs.

Fixpoint node_well_formed (n : node) : bool :=
  match n with
  | Text _ => true
  | Raw _ => true
  | Elem _ attrs children =>
    values_well_formed attrs
    && (fix go (l : list node) : bool :=
          match l with
          | [] => true
          | k :: l' => node_well_formed k && go l'
          end) children
  end.

Fixpoint nodes_well_formed (l : list node) : bool :=
  match l with
  | [] => true
  | k :: l' => node_well_formed k && nodes_well_formed l'
  end.

(** What the head and body handlers append to an element of a tag. *)
Definition injected (config : Config) (tag : jsstring) : list jsstring :=
  (if eqb tag (lit "head")
   then HeadHandler.base_script
        :: (if debug_enabled config then [HeadHandler.eruda_script] else [])
   else [])
  ++ (if eqb tag (lit "body")
      then (if debug_enabled config then [BodyHandler.trigger] else [])
      else []).

(** Induction on documents, with the hypothesis for every child. *)
Section NodeInduction.

Variable P : node -> Prop.
Hypothesis text_case : forall s, P (Text s).
Hypothesis raw_case : forall h, P (Raw h).
Hypothesis elem_case :
  forall tag attrs children, Forall P children -> P (Elem tag attrs children).

Fixpoint node_ind (n : node) : P n :=
  match n with
  | Text s => text_case s
  | Raw h => raw_case h
  | Elem tag attrs children =>
    elem_case tag attrs children
      ((fix go (l : list node) : Forall P l :=
          match l with
          | [] => Forall_nil P
          | k :: l' => Forall_cons k (node_ind k) (go l')
          end) children)
  end.

End NodeInduction.

(* ================================================================== *)
(** * Inputs of the examples *)
(* ================================================================== *)

Module Samples.

(** The configuration [getEdgeConfig] returns. *)
Definition default_config : Config :=
  mkConfig (Some (mkDevFeatures (Boolean true) (Boolean false)))
           (lit "comet-proxy-v1") [].

Definition blocking_config : Config :=
  mkConfig (Some (mkDevFeatures (Boolean true) (Boolean false)))
           (lit "comet-proxy-v1") [lit "example.com"].

Definition quiet_config : Config :=
  mkConfig (Some (mkDevFeatures (Boolean false) (Boolean false)))
           (lit "comet-proxy-v1") [].

(** [<html><head></head><head></head><body></body><body></body></html>] *)
Definition two_heads : list node :=
  [Elem (lit "html") []
     [Elem (lit "head") [] []; Elem (lit "head") [] [];
      Elem (lit "body") [] []; Elem (lit "body") [] []]].

(** [<html><head></head><body><a href=... title=...>x</a></body></html>] *)
Definition page : list node :=
  [Elem (lit "html") []
     [Elem (lit "head") [] [];
      Elem (lit "body") []
        [Elem (lit "a")
           [(lit "href", lit "https://example.com/x"); (lit "title", lit "x")]
           [Text (lit "x")]]]].

Definition anchor : Element :=
  mkElement (lit "a")
    [(lit "title", lit "x"); (lit "href", lit "https://example.com/x")] [].

Definition html_response : Response :=
  mkResponse 200 [(lit "content-type", lit "text/html; charset=utf-8")]
             (Stream page).

Definition json_response : Response :=
  mkResponse 200 [(lit "content-type", lit "application/json")]
             (Stream [Text (lit "{}")]).

(** A web archive: a multipart message whose first part is a page. *)
Definition archive_type : jsstring :=
  lit "multipart/related; type=" ++ dq ++ lit "text/html" ++ dq.

Definition archive_response : Response :=
  mkResponse 200 [(lit "content-type", archive_type)] (Stream page).

(** An upstream that serves a page at [https://example.com/], a JSON
    document at [https://example.com/data.json], a web archive at
    [https://example.com/page.mht], and is unreachable elsewhere. *)
Definition upstream (url ua : jsstring) : completion Response :=
  if eqb url (lit "https://example.com/") then Normal html_response
  else if eqb url (lit "https://example.com/data.json")
  then Normal json_response
  else if eqb url (lit "https://example.com/page.mht")
  then Normal archive_response
  else Throw (mkError TypeError (lit "fetch failed")).

Definition archive_request : Request :=
  mkRequest (lit "/proxy/https%3A%2F%2Fexample.com%2Fpage.mht") None.

Definition page_request : Request :=
  mkRequest (lit "/proxy/https%3A%2F%2Fexample.com%2F") None.

Definition json_request : Request :=
  mkRequest (lit "/proxy/https%3A%2F%2Fexample.com%2Fdata.json") None.

Definition empty_request : Request := mkRequest (lit "/proxy/") None.

Definition bad_escape_request : Request := mkRequest (lit "/proxy/%") None.

(** The URL parser at the one input the examples give it: a URL of a
    special scheme never has an empty path, so [https://example.com]
    serialises as [https://example.com/]. *)
Definition href (url : jsstring) : completion jsstring :=
  if eqb url (lit "https://example.com")
  then Normal (lit "https://example.com/")
  else Throw (mkError TypeError (lit "Invalid URL")).

End Samples.

(* ================================================================== *)
(** * The cache store of the browser (Service Worker standard) *)
(* ================================================================== *)

Module CacheStorage.

(** The named caches, in the order of their creation; [C] is what a
    cache holds.  The operations are those of a store that answers: a
    rejected promise of the store is not modelled. *)
Definition t (C : Type) : Type := list (jsstring * C).

(** [caches.keys()] *)
Definition keys {C} (s : t C) : list jsstring := List.map fst s.

(** [caches.delete(name)] *)
Definition delete {C} (s : t C) (name : jsstring) : t C :=
  filter (fun kv => negb (eqb (fst kv) name)) s.

(** [Promise.all(names.map(name => caches.delete(name)))] *)
Definition delete_all {C} (s : t C) (names : list jsstring) : t C :=
  fold_left delete names s.

End CacheStorage.

(* ================================================================== *)
(** * [public/cep.js]: the [window.comet] functions *)
(* ================================================================== *)

Module Comet.

Definition COMET_CONFIG_version : jsstring := lit "1.0.0".

(** What the theme functions read and write: the [data-comet-theme]
    attribute of the document element and the local storage of the
    origin.  (What the functions log is left out.) *)
Record Page := mkPage {
  data_comet_theme : option jsstring;
  localStorage : list (jsstring * jsstring)
}.

(** [localStorage.getItem(key)] and [localStorage.setItem(key, value)],
    of a storage that takes the item. *)
Definition getItem (p : Page) (key : jsstring) : option jsstring :=
  lookup (localStorage p) key.

Definition setItem (p : Page) (key value : jsstring) : Page :=
  mkPage (data_comet_theme p) (update (localStorage p) key value).

Definition validThemes : list jsstring :=
  [lit "light"; lit "dark"; lit "auto"].

Definition setTheme (p : Page) (theme : jsstring) : Page :=
  if negb (existsb (eqb theme) validThemes) then p
  else
    let p := mkPage (Some theme) (localStorage p) in
    setItem p (lit "comet-theme") theme.

(** The part of [init] that touches the page: the saved theme is applied
    when there is one.  (The registration of the service worker, which
    [init] starts and does not wait for, is left out.) *)
Definition init (p : Page) : Page :=
  match getItem p (lit "comet-theme") with
  | Some savedTheme => if truthy savedTheme then setTheme p savedTheme else p
  | None => p
  end.

(** What [checkStatus] looks at: [navigator.serviceWorker], which is
    absent in a browser without service workers and whose [controller]
    is [null] ([None]) on a page no worker controls; and [window.eruda]. *)
Record Browser := mkBrowser {
  navigator_serviceWorker : option (option jsstring);
  window_eruda : option jsstring
}.

Record Status := mkStatus {
  version : jsstring;
  serviceWorker : bool;
  registered : bool;
  eruda : bool
}.

(** [x?.controller !== null]: without [x] the left side is [undefined],
    which is not [null]. *)
Definition controller_not_null (sw : option (option jsstring)) : bool :=
  match sw with
  | None => true
  | Some None => false
  | Some (Some _) => true
  end.

Definition checkStatus (b : Browser) : Status :=
  mkStatus COMET_CONFIG_version
    (match navigator_serviceWorker b with Some _ => true | None => false end)
    (controller_not_null (navigator_serviceWorker b))
    (match window_eruda b with Some _ => true | None => false end).

(** [clearCache]: [None] is a window without the Cache API. *)
Definition clearCache {C} (caches : option (CacheStorage.t C))
  : option (CacheStorage.t C) :=
  match caches with
  | None => None
  | Some s => Some (CacheStorage.delete_all s (CacheStorage.keys s))
  end.

End Comet.

(* ================================================================== *)
(** * [public/sw-handler.js] *)
(* ================================================================== *)

Module ServiceWorker.

Definition CACHE_NAME : jsstring := lit "comet-cache-v1".
Definition PROXY_ENDPOINT : jsstring := lit "/proxy/".
Definition SW_VERSION : jsstring := lit "1.0.0".

(** A request, with the origin and the path of [new URL(request.url)]. *)
Record Request := mkRequest {
  url : jsstring;
  origin : jsstring;
  pathname : jsstring
}.

Inductive ResponseType := basic | cors | error | opaque | opaqueredirect.

Record Response := mkResponse {
  status : Z;
  type : ResponseType;
  body : jsstring
}.

Definition is_error (t : ResponseType) : bool :=
  match t with error => true | _ => false end.

(** The calls the worker makes, in order.  [Put] is the call
    [cache.put(request, response)] on the cache of the name. *)
Inductive effect :=
| Fetch (request : Request)
| Put (cacheName : jsstring) (request : Request) (response : Response)
| ConsoleError (label : jsstring) (e : Error)
| SkipWaiting
| PostSuccess
| PostVersion (v : jsstring).

(** The [activate] listener: every cache of another name is deleted. *)
Definition activate {C} (s : CacheStorage.t C) : CacheStorage.t C :=
  CacheStorage.delete_all s
    (filter (fun name => negb (eqb name CACHE_NAME)) (CacheStorage.keys s)).

Section Worker.

(** The surroundings of the worker: the network, the origin of the
    worker, and [caches.match(request)], [None] for [undefined]. *)
Variable fetch : Request -> completion Response.
Variable self_origin : jsstring.
Variable caches_match : Request -> option Response.

(** [fetch] resolves with a response object, so [!response] is false. *)
Definition fetchAndCache (request : Request)
  : list effect * completion Response :=
  match fetch request with
  | Normal response =>
    if negb (status response =? 200) || is_error (type response)
    then ([Fetch request], Normal response)
    else ([Fetch request; Put CACHE_NAME request response], Normal response)
  | Throw e =>
    ([Fetch request; ConsoleError (lit "CEP SW: Fetch failed") e], Throw e)
  end.

(** What the [fetch] listener does with the event. *)
Inductive outcome :=
| NotIntercepted
| RespondWith (r : completion Response).

Definition onfetch (request : Request) : list effect * outcome :=
  if startsWith (pathname request) PROXY_ENDPOINT then ([], NotIntercepted)
  else if eqb (origin request) self_origin then
    match caches_match request with
    | Some response => ([], RespondWith (Normal response))
    | None => ([Fetch request], RespondWith (fetch request))
    end
  else
    match caches_match request with
    | Some cachedResponse =>
      (fst (fetchAndCache request), RespondWith (Normal cachedResponse))
    | None =>
      (fst (fetchAndCache request), RespondWith (snd (fetchAndCache request)))
    end.

End Worker.

(** The [message] listener over the cache store: [data_type] is
    [event.data.type], [None] when the event has no data or no type, and
    [port] tells whether [event.ports[0]] is there.  The completion is
    that of the listener; a reply that the emptied store would send to a
    missing port is not sent. *)
Definition onmessage {C} (s : CacheStorage.t C) (data_type : option jsstring)
           (port : bool) : CacheStorage.t C * list effect * completion unit :=
  match data_type with
  | None => (s, [], Normal tt)
  | Some t =>
    let skip := if eqb t (lit "SKIP_WAITING") then [SkipWaiting] else [] in
    let s' := if eqb t (lit "CLEAR_CACHE")
              then CacheStorage.delete_all s (CacheStorage.keys s) else s in
    let cleared := if eqb t (lit "CLEAR_CACHE") && port
                   then [PostSuccess] else [] in
    if eqb t (lit "GET_VERSION") then
      if port then (s', skip ++ cleared ++ [PostVersion SW_VERSION], Normal tt)
      else (s', skip ++ cleared,
            Throw (mkError TypeError (lit "Cannot read properties of undefined")))
    else (s', skip ++ cleared, Normal tt)
  end.

End ServiceWorker.

(* ================================================================== *)
(** * Measures of documents and traces *)
(* ================================================================== *)

(** The upstream fetches of a trace of the edge handler. *)
Definition fetches (tr : list effect) : list (jsstring * jsstring) :=
  flat_map (fun e => match e with
                     | Fetch target agent => [(target, agent)]
                     | ConsoleError _ _ => []
                     end) tr.

(** The units that [encodeURIComponent] writes: the unescaped ones and
    the percent sign. *)
Definition uri_safe (c : Z) : bool := URI.unescaped c || (c =? 37).

(** The path segments that the URL parser resolves and does not keep
    (URL standard: single-dot and double-dot path segments, with [%2e]
    for the dot in either case).  A path of other segments, made of the
    units above, is the path the parser gives back. *)
Definition dot_segments : list jsstring :=
  [lit "."; lit ".."; lit "%2e"; lit "%2E";
   lit ".%2e"; lit ".%2E"; lit "%2e."; lit "%2E.";
   lit "%2e%2e"; lit "%2e%2E"; lit "%2E%2e"; lit "%2E%2E"].

Definition dot_segment (e : jsstring) : bool := existsb (eqb e) dot_segments.

(** Every unit of the string is a 16-bit code unit. *)
Definition code_units (s : jsstring) : bool :=
  forallb (fun c => (0 <=? c) && (c <? 65536)) s.

(** The document without what a rewriter may touch: the inserted raw
    markup is taken out and every attribute value is blanked; tags,
    attribute names, text and the order of everything stay. *)
Definition blank (kv : jsstring * jsstring) : jsstring * jsstring :=
  (fst kv, []).

Fixpoint skeleton (n : node) : list node :=
  match n with
  | Text s => [Text s]
  | Raw _ => []
  | Elem tag attrs children =>
    [Elem tag (List.map blank attrs)
          ((fix go (l : list node) : list node :=
              match l with
              | [] => []
              | k :: l' => skeleton k ++ go l'
              end) children)]
  end.

Fixpoint skeletons (l : list node) : list node :=
  match l with
  | [] => []
  | k :: l' => skeleton k ++ skeletons l'
  end.

(** The tags some handler of the rewriter is registered for. *)
Definition matched_tags : selector :=
  lit "head" :: lit "body" :: rewritten_tags.

(** No element of the document has a matched tag. *)
Fixpoint unmatched (n : node) : bool :=
  match n with
  | Text _ => true
  | Raw _ => true
  | Elem tag _ children =>
    negb (selects matched_tags tag)
    && (fix go (l : list node) : bool :=
          match l with
          | [] => true
          | k :: l' => unmatched k && go l'
          end) children
  end.

Fixpoint all_unmatched (l : list node) : bool :=
  match l with
  | [] => true
  | k :: l' => unmatched k && all_unmatched l'
  end.

(** The theme of a page is sound: the attribute and the stored theme
    agree, and a theme that is set is one of the valid themes. *)
Definition theme_sound (p : Comet.Page) : Prop :=
  Comet.data_comet_theme p = Comet.getItem p (lit "comet-theme")
  /\ forall t, Comet.data_comet_theme p = Some t -> In t Comet.validThemes.

(** Inputs of the further examples. *)
Module Cases.

Definition offline (target agent : jsstring) : completion Response :=
  Throw (mkError TypeError (lit "fetch failed")).

Definition page_with_agent : Request :=
  mkRequest (lit "/proxy/https%3A%2F%2Fexample.com%2F") (Some (lit "curl/8.0")).

Definition cached_html_response : Response :=
  mkResponse 200
    [(lit "content-type", lit "text/html");
     (lit "cache-control", lit "max-age=60");
     (lit "access-control-allow-origin", lit "https://example.com")]
    (Stream Samples.page).

Definition cached_upstream (target agent : jsstring) : completion Response :=
  Normal cached_html_response.

(** An upstream that answers every request with the page and the
    status 999. *)
Definition odd_status_response : Response :=
  mkResponse 999 [(lit "content-type", lit "text/html")] (Stream Samples.page).

Definition odd_upstream (target agent : jsstring) : completion Response :=
  Normal odd_status_response.


(** [<div><p class=...>hi</p><video src=...></video></div>] *)
Definition plain_page : list node :=
  [Elem (lit "div") []
     [Elem (lit "p") [(lit "class", lit "x")] [Text (lit "hi")];
      Elem (lit "video") [(lit "src", lit "https://example.com/v.mp4")] []]].

Definition head_with_title : node :=
  Elem (lit "head") [(lit "lang", lit "en")]
       [Elem (lit "title") [] [Text (lit "t")]].

(** A parser that leaves the URL as it is, and one that rejects it. *)
Definition href_same (u : jsstring) : completion jsstring := Normal u.

Definition href_fails (u : jsstring) : completion jsstring :=
  Throw (mkError TypeError (lit "Invalid URL")).

Definition fresh_page : Comet.Page := Comet.mkPage None [].

Definition stored_page : Comet.Page :=
  Comet.mkPage None [(lit "lang", lit "en"); (lit "comet-theme", lit "dark")].

Definition old_caches : CacheStorage.t (list jsstring) :=
  [(lit "comet-cache-v0", [lit "/old"]);
   (lit "comet-cache-v1", [lit "/cep.js"; lit "/sw-handler"]);
   (lit "other", [])].

Definition ok_response : ServiceWorker.Response :=
  ServiceWorker.mkResponse 200 ServiceWorker.cors (lit "fresh").

Definition stale_response : ServiceWorker.Response :=
  ServiceWorker.mkResponse 200 ServiceWorker.cors (lit "stale").

Definition missing_response : ServiceWorker.Response :=
  ServiceWorker.mkResponse 404 ServiceWorker.cors (lit "none").

Definition network (r : ServiceWorker.Request)
  : completion ServiceWorker.Response :=
  if eqb (ServiceWorker.pathname r) (lit "/missing")
  then Normal missing_response
  else Normal ok_response.

Definition no_network (r : ServiceWorker.Request)
  : completion ServiceWorker.Response :=
  Throw (mkError TypeError (lit "Failed to fetch")).

Definition empty_cache (r : ServiceWorker.Request)
  : option ServiceWorker.Response := None.

Definition warm_cache (r : ServiceWorker.Request)
  : option ServiceWorker.Response := Some stale_response.

Definition cdn_request : ServiceWorker.Request :=
  ServiceWorker.mkRequest (lit "https://cdn.example.net/lib.js")
                          (lit "https://cdn.example.net") (lit "/lib.js").

Definition proxy_request : ServiceWorker.Request :=
  ServiceWorker.mkRequest (lit "https://app.example/proxy/x")
                          (lit "https://app.example") (lit "/proxy/x").

Definition own_request : ServiceWorker.Request :=
  ServiceWorker.mkRequest (lit "https://app.example/cep.js")
                          (lit "https://app.example") (lit "/cep.js").

End Cases.

(* ================================================================== *)
(** * The codec is lossless on well-formed strings *)
(* ================================================================== *)

Section Codec.

Import URI.

Ltac cases :=
  repeat match goal with
  | |- context [?a <? ?b] => destruct (Z.ltb_spec a b)
  | |- context [?a <=? ?b] => destruct (Z.leb_spec a b)
  | |- context [?a =? ?b] => destruct (Z.eqb_spec a b)
  end.

Ltac arith := try solve [Z.div_mod_to_equations; lia
                        | exfalso; Z.div_mod_to_equations; lia].

Lemma hex_value_digit d : 0 <= d < 16 -> hex_value (hex_digit d) = Some d.
Proof.
  intros Hd. unfold hex_value, hex_digit.
  destruct (Z.ltb_spec d 10); cases; cbn [andb];
    solve [f_equal; lia | exfalso; lia].
Qed.

Lemma read_escape b r :
  0 <= b < 256 ->
  read_octet (37 :: hex_digit (b / 16) :: hex_digit (b mod 16) :: r)
  = Some (b, r).
Proof.
  intros Hb. unfold read_octet.
  rewrite Z.eqb_refl, !hex_value_digit by arith.
  do 2 f_equal. arith.
Qed.

Lemma unescaped_not_percent c : unescaped c = true -> (c =? 37) = false.
Proof.
  intros H. destruct (Z.eqb_spec c 37) as [->|]; [discriminate H | reflexivity].
Qed.

Lemma utf16_scalar c :
  is_lead c = false -> is_trail c = false -> (c <? 65536) = true ->
  utf16_units c = [c].
Proof. intros _ _ H. unfold utf16_units. now rewrite H. Qed.

Lemma utf16_pair hi lo :
  is_lead hi = true -> is_trail lo = true ->
  utf16_units (pair_code_point hi lo) = [hi; lo].
Proof.
  unfold is_lead, is_trail, utf16_units, pair_code_point.
  rewrite !andb_true_iff, !Z.leb_le. intros [? ?] [? ?].
  cases; [lia|]. f_equal; [|f_equal]; arith.
Qed.

Lemma pair_scalar hi lo :
  is_lead hi = true -> is_trail lo = true -> scalar (pair_code_point hi lo).
Proof.
  unfold is_lead, is_trail, scalar, pair_code_point.
  rewrite !andb_true_iff, !Z.leb_le. lia.
Qed.

(** One encoded code point decodes in one step. *)
Lemma decode_escaped cp r fuel :
  scalar cp ->
  decode_units (S fuel) (escape_octets (utf8_octets cp) ++ r)
  = (x <- decode_units fuel r ;; Normal (utf16_units cp ++ x)).
Proof.
  intros [Hr Hs]. unfold utf8_octets.
  destruct (Z.ltb_spec cp 128); [|destruct (Z.ltb_spec cp 2048);
    [|destruct (Z.ltb_spec cp 65536)]];
    cbn [escape_octets flat_map escape_octet app decode_units];
    rewrite Z.eqb_refl; cbn [negb];
    rewrite read_escape by arith.
  - replace (leading_ones cp) with 0%nat
      by (unfold leading_ones; cases; lia).
    unfold utf16_units. cases; try lia. reflexivity.
  - replace (leading_ones (192 + cp / 64)) with 2%nat
      by (unfold leading_ones; cases; arith; reflexivity).
    cbn [read_octets]. rewrite read_escape by arith.
    unfold utf8_code_point, is_continuation.
    replace ((192 + cp / 64 - 192) * 64 + (128 + cp mod 64 - 128)) with cp
      by arith.
    cases; arith; reflexivity.
  - replace (leading_ones (224 + cp / 4096)) with 3%nat
      by (unfold leading_ones; cases; arith; reflexivity).
    cbn [read_octets]. rewrite !read_escape by arith.
    unfold utf8_code_point, is_continuation.
    replace ((224 + cp / 4096 - 224) * 4096
             + (128 + (cp / 64) mod 64 - 128) * 64
             + (128 + cp mod 64 - 128)) with cp by arith.
    cases; arith; reflexivity.
  - replace (leading_ones (240 + cp / 262144)) with 4%nat
      by (unfold leading_ones; cases; arith; reflexivity).
    cbn [read_octets]. rewrite !read_escape by arith.
    unfold utf8_code_point, is_continuation.
    replace ((240 + cp / 262144 - 240) * 262144
             + (128 + (cp / 4096) mod 64 - 128) * 4096
             + (128 + (cp / 64) mod 64 - 128) * 64
             + (128 + cp mod 64 - 128)) with cp by arith.
    cases; arith; reflexivity.
Qed.

Lemma unescaped_ascii c : unescaped c = true -> 0 <= c < 128.
Proof.
  unfold unescaped, is_alnum.
  change (lit "-_.!~*'()") with [45; 95; 46; 33; 126; 42; 39; 40; 41].
  cbn [existsb]. cases; cbn [andb orb]; intros; lia || discriminate.
Qed.

Lemma escaped_length cp r fuel :
  (List.length (escape_octets (utf8_octets cp) ++ r) <= fuel)%nat ->
  exists fuel', fuel = S fuel' /\ (List.length r <= fuel')%nat.
Proof.
  unfold utf8_octets. cases;
    cbn [escape_octets flat_map escape_octet app List.length];
    (destruct fuel as [|fuel']; [lia|]); intros; exists fuel';
    (split; [reflexivity|]); rewrite ?length_app in *; cbn in *; lia.
Qed.

(** What [encodeURIComponent] writes for a well-formed string,
    [decodeURIComponent] reads back, whatever fuel covers its length. *)
Lemma encode_decode_units n :
  forall s, (List.length s <= n)%nat -> well_formed s = true ->
  exists e, encodeURIComponent s = Normal e
            /\ forall fuel, (List.length e <= fuel)%nat ->
                            decode_units fuel e = Normal s.
Proof.
  induction n as [|n IH]; intros [|c rest] Hlen Hwf;
    try (exists []; split; [reflexivity | intros [|?] _; reflexivity]);
    cbn [List.length] in Hlen; [lia|].
  cbn [encodeURIComponent well_formed] in *.
  destruct (unescaped c) eqn:Hu.
  - pose proof (unescaped_ascii c Hu) as Hc.
    assert (is_lead c = false) as Hl
      by (unfold is_lead; cases; cbn [andb]; lia || reflexivity).
    rewrite Hl in Hwf. apply andb_true_iff in Hwf as [_ Hwf].
    destruct (IH rest ltac:(lia) Hwf) as (e & He & Hd).
    rewrite He. exists (c :: e). split; [reflexivity|].
    intros [|fuel] Hf; cbn [List.length] in Hf; [lia|].
    cbn [decode_units]. rewrite (unescaped_not_percent c Hu). cbn [negb].
    rewrite Hd by lia. reflexivity.
  - destruct (is_lead c) eqn:Hl.
    + destruct rest as [|lo rest']; [discriminate|].
      apply andb_true_iff in Hwf as [Ht Hwf]. rewrite Ht.
      cbn [List.length] in Hlen.
      destruct (IH rest' ltac:(lia) Hwf) as (e & He & Hd).
      rewrite He. eexists. split; [reflexivity|].
      intros fuel Hf. apply escaped_length in Hf as (fuel' & -> & Hf).
      rewrite decode_escaped by now apply pair_scalar.
      rewrite Hd by lia. cbn [JS.bind]. now rewrite utf16_pair.
    + apply andb_true_iff in Hwf as [Hc Hwf].
      apply andb_true_iff in Hc as [Hc Ht].
      apply andb_true_iff in Hc as [Hlo Hhi].
      apply negb_true_iff in Ht. rewrite Ht.
      destruct (IH rest ltac:(lia) Hwf) as (e & He & Hd).
      rewrite He. eexists. split; [reflexivity|].
      intros fuel Hf. apply escaped_length in Hf as (fuel' & -> & Hf).
      rewrite decode_escaped.
      * rewrite Hd by lia. cbn [JS.bind]. now rewrite utf16_scalar.
      * revert Hl Ht. unfold is_lead, is_trail, scalar.
        apply Z.leb_le in Hlo. apply Z.ltb_lt in Hhi.
        cases; cbn [andb]; intros; lia || discriminate.
Qed.

Lemma decode_encode s :
  well_formed s = true ->
  exists e, encodeURIComponent s = Normal e
            /\ decodeURIComponent e = Normal s.
Proof.
  intros Hwf.
  destruct (encode_decode_units (List.length s) s (le_n _) Hwf)
    as (e & He & Hd).
  exists e. split; [exact He | apply Hd, le_n].
Qed.

End Codec.

(* ================================================================== *)
(** * Strings and header lists *)
(* ================================================================== *)

Lemma eqb_eq s t : eqb s t = true <-> s = t.
Proof.
  revert t. induction s as [|c s IH]; intros [|d t]; cbn;
    try (split; [discriminate | discriminate || reflexivity]);
    try (split; reflexivity).
  rewrite andb_true_iff, Z.eqb_eq, IH. split.
  - intros [-> ->]. reflexivity.
  - intros [= -> ->]. split; reflexivity.
Qed.

Lemma eqb_refl s : eqb s s = true.
Proof. now apply eqb_eq. Qed.

Lemma eqb_neq s t : eqb s t = false <-> s <> t.
Proof.
  split.
  - intros H ->. rewrite eqb_refl in H. discriminate.
  - intros H. destruct (eqb s t) eqn:E; [|reflexivity].
    apply eqb_eq in E. contradiction.
Qed.

Section HeaderFacts.

Import Headers.

Lemma named_refl name value : named name (name, value) = true.
Proof. apply eqb_refl. Qed.

(** Two names that match one header match each other. *)
Lemma named_trans n m kv :
  named n kv = true -> named m kv = true -> eqb_nocase m n = true.
Proof.
  unfold named, eqb_nocase. rewrite !eqb_eq. congruence.
Qed.

Lemma filter_none (n : jsstring) (h : t) :
  filter (named n) (filter (fun kv => negb (named n kv)) h) = [].
Proof.
  induction h as [|kv h IH]; [reflexivity|]. cbn [filter].
  destruct (named n kv) eqn:E; cbn [negb filter]; [exact IH|]. now rewrite E.
Qed.

Lemma filter_other (n m : jsstring) (h : t) :
  eqb_nocase m n = false ->
  filter (named n) (filter (fun kv => negb (named m kv)) h)
  = filter (named n) h.
Proof.
  intros Hnm. induction h as [|kv h IH]; [reflexivity|]. cbn [filter].
  destruct (named m kv) eqn:Em; cbn [negb filter].
  - destruct (named n kv) eqn:En; [|exact IH].
    rewrite (named_trans n m kv En Em) in Hnm. discriminate.
  - now rewrite IH.
Qed.

(** After [set], exactly one header has the name, with the value. *)
Lemma set_filter (h : t) (n v : jsstring) :
  exists k, filter (named n) (set h n v) = [(k, v)].
Proof.
  induction h as [|kv h [k IH]]; cbn [set filter].
  - exists n. now rewrite named_refl.
  - destruct (named n kv) eqn:E; cbn [filter].
    + exists (fst kv).
      replace (named n (fst kv, v)) with (named n kv) by reflexivity.
      rewrite E. now rewrite filter_none.
    + rewrite E. now exists k.
Qed.

Lemma get_set (h : t) (n v : jsstring) : get (set h n v) n = Some v.
Proof.
  unfold get. destruct (set_filter h n v) as [k ->]. reflexivity.
Qed.

(** [set] leaves the headers of other names as they were. *)
Lemma get_set_other (h : t) (n m v : jsstring) :
  eqb_nocase m n = false -> get (set h m v) n = get h n.
Proof.
  intros Hnm. unfold get.
  assert (filter (named n) (set h m v) = filter (named n) h) as ->;
    [|reflexivity].
  induction h as [|kv h IH]; cbn [set filter].
  - replace (named n (m, v)) with (eqb_nocase m n) by reflexivity.
    now rewrite Hnm.
  - destruct (named m kv) eqn:Em; cbn [filter].
    + replace (named n (fst kv, v)) with (named n kv) by reflexivity.
      destruct (named n kv) eqn:En.
      * rewrite (named_trans n m kv En Em) in Hnm. discriminate.
      * now apply filter_other.
    + now rewrite IH.
Qed.

(** The overlay of the HTML branch carries both headers. *)
Lemma overlay_carries (st : Z) (h : t) (b : Body) :
  carries_proxy_headers
    (mkResponse st
       (set (set h (lit "X-Proxied-By") (lit "Comet-Edge-Proxy"))
            (lit "Access-Control-Allow-Origin") (lit "*"))
       b).
Proof.
  split; cbn [headers].
  - rewrite get_set_other by reflexivity. apply get_set.
  - apply get_set.
Qed.

End HeaderFacts.

(* ================================================================== *)
(** * The request handler *)
(* ================================================================== *)

Section HandlerFacts.

Variable fetch : jsstring -> jsstring -> completion Response.

(** The handler past the check of the target, with the configuration
    loaded and the upstream fetched.  An error in the [try] block, that
    of the fetch or that of the [Response] constructor, ends in the
    [catch]. *)
Lemma handler_with_fetched config req d :
  target req = Normal d -> truthy d = true ->
  handler_with fetch (ret config) req
  = match fetch d (forwarded_agent req) with
    | Normal up =>
      if declares_html up then
        if status_ok (status up) then
          ([Fetch d (forwarded_agent req)],
           Normal
             (mkResponse (status up)
                (Headers.set
                   (Headers.set (headers up) (lit "X-Proxied-By")
                                (lit "Comet-Edge-Proxy"))
                   (lit "Access-Control-Allow-Origin") (lit "*"))
                (body (transform (rewriter config) up))))
        else
          ([Fetch d (forwarded_agent req);
            ConsoleError (lit "Proxy error:") status_out_of_range],
           Normal (Response_of_text
                     (lit "Proxy Error: " ++ message status_out_of_range) 500
                     [(lit "Content-Type", lit "text/plain")]))
      else ([Fetch d (forwarded_agent req)], Normal up)
    | Throw e =>
      ([Fetch d (forwarded_agent req);
        ConsoleError (lit "Proxy error:") e],
       Normal (Response_of_text (lit "Proxy Error: " ++ message e) 500
                                [(lit "Content-Type", lit "text/plain")]))
    end.
Proof.
  intros Ht Hd. unfold handler_with. fold (target req). rewrite Ht.
  unfold lift, await at 1. rewrite Hd. cbn [negb].
  unfold do_fetch, perform, lift, ret, await, try_catch.
  fold (forwarded_agent req).
  destruct (fetch d (forwarded_agent req)) as [up|e]; [|reflexivity].
  fold (declares_html up). destruct (declares_html up); [|reflexivity].
  unfold new_Response. cbn [status transform].
  destruct (status_ok (status up)); reflexivity.
Qed.

(** The status test of the constructor. *)
Lemma status_ok_range st : status_ok st = true <-> 200 <= st <= 599.
Proof. unfold status_ok. rewrite andb_true_iff, !Z.leb_le. tauto. Qed.

Lemma getEdgeConfig_default : getEdgeConfig = ret Samples.default_config.
Proof. reflexivity. Qed.

Lemma handler_default req :
  handler fetch req = handler_with fetch (ret Samples.default_config) req.
Proof. reflexivity. Qed.

End HandlerFacts.

(* ================================================================== *)
(** * What the handler answers *)
(* ================================================================== *)

(** C9.  When the decoded target of the request is the empty string, the
    handler answers with status 400 and performs no effect at all: no
    upstream fetch happens before the error response. *)
Theorem missing_target_is_400_without_fetch :
  forall (fetch : jsstring -> jsstring -> completion Response) (req : Request),
    target req = Normal [] ->
    exists r, handler fetch req = ([], Normal r)
              /\ status r = 400
              /\ body r = Stream [Text (lit "Missing target URL")].
Proof.
  intros fetch req Ht. eexists. split; [|split].
  - unfold handler, handler_with. fold (target req). rewrite Ht. reflexivity.
  - reflexivity.
  - reflexivity.
Qed.

Lemma missing_target_witness :
  exists r, handler Samples.upstream Samples.empty_request = ([], Normal r)
            /\ status r = 400
            /\ body r = Stream [Text (lit "Missing target URL")].
Proof.
  apply (missing_target_is_400_without_fetch
           Samples.upstream Samples.empty_request).
  reflexivity.
Defined.

(** The passthrough branch.  When the [content-type] header of the
    upstream response does not contain the text [text/html] (a missing
    header counts as the empty string), the handler bypasses the rewriter
    and answers with the upstream response itself: the same status, the
    same headers and the same body, after the one fetch. *)
Theorem non_html_passes_through :
  forall (fetch : jsstring -> jsstring -> completion Response)
         (req : Request) (d : jsstring) (up : Response),
    target req = Normal d -> truthy d = true ->
    fetch d (forwarded_agent req) = Normal up ->
    declares_html up = false ->
    handler fetch req = ([Fetch d (forwarded_agent req)], Normal up).
Proof.
  intros fetch req d up Ht Hd Hf Hh.
  rewrite handler_default, (handler_with_fetched fetch _ req d Ht Hd), Hf, Hh.
  reflexivity.
Qed.

Lemma non_html_passes_through_witness :
  handler Samples.upstream Samples.json_request
  = ([Fetch (lit "https://example.com/data.json") (lit "Mozilla/5.0")],
     Normal Samples.json_response).
Proof.
  apply (non_html_passes_through Samples.upstream Samples.json_request
           (lit "https://example.com/data.json") Samples.json_response);
    reflexivity.
Defined.

(** C7.  The handler rewrites a response that is not HTML.  Its test for
    HTML is whether the content type contains [text/html]; the content
    type of a web archive, [multipart/related] with the parameter [type]
    naming [text/html], is not an HTML media type and passes that test,
    so the archive goes through the rewriter, and neither its headers nor
    its body come back as they were. *)
Lemma archive_is_rewritten :
  spec_html_media_type Samples.archive_type = false
  /\ exists tr r,
       handler Samples.upstream Samples.archive_request = (tr, Normal r)
       /\ headers r <> headers Samples.archive_response
       /\ body r <> body Samples.archive_response.
Proof.
  split; [reflexivity|]. do 2 eexists. split; [reflexivity|].
  split; discriminate.
Qed.

(** C4.  The handler called with the path [/proxy/%], or with
    [/proxy/%FF], completes with a URIError and no response:
    [decodeURIComponent] runs before the [try] block, so the exception of
    an invalid escape is not caught. *)
Theorem invalid_escape_escapes_the_handler :
  forall (fetch : jsstring -> jsstring -> completion Response)
         (ua : option jsstring),
    handler fetch (mkRequest (lit "/proxy/%") ua) = ([], Throw URI.malformed)
    /\ handler fetch (mkRequest (lit "/proxy/%FF") ua)
       = ([], Throw URI.malformed).
Proof. split; reflexivity. Qed.

(** An HTML upstream with a status outside 200..599 ends in the
    [catch]: the [Response] constructor throws, and the answer is the
    500 of the error path, without the two headers. *)
Lemma out_of_range_status_is_500 :
  forall (fetch : jsstring -> jsstring -> completion Response)
         (req : Request) (d : jsstring) (up : Response),
    target req = Normal d -> truthy d = true ->
    fetch d (forwarded_agent req) = Normal up ->
    declares_html up = true ->
    ~ 200 <= status up <= 599 ->
    exists r,
      handler fetch req
      = ([Fetch d (forwarded_agent req);
          ConsoleError (lit "Proxy error:") status_out_of_range], Normal r)
      /\ status r = 500
      /\ headers r = [(lit "Content-Type", lit "text/plain")].
Proof.
  intros fetch req d up Ht Hd Hf Hh Hs.
  assert (status_ok (status up) = false) as Hok.
  { destruct (status_ok (status up)) eqn:E; [|reflexivity].
    apply status_ok_range in E. contradiction. }
  rewrite handler_default, (handler_with_fetched fetch _ req d Ht Hd),
    Hf, Hh, Hok.
  eexists. split; [reflexivity|]. split; reflexivity.
Qed.

(** C2, as the code has it.  On the HTML branch, for an upstream status
    within 200..599, the response carries [X-Proxied-By: Comet-Edge-Proxy]
    and [Access-Control-Allow-Origin: *], with the status of the upstream
    response. *)
Theorem html_branch_carries_proxy_headers :
  forall (fetch : jsstring -> jsstring -> completion Response)
         (req : Request) (d : jsstring) (up : Response),
    target req = Normal d -> truthy d = true ->
    fetch d (forwarded_agent req) = Normal up ->
    declares_html up = true ->
    200 <= status up <= 599 ->
    exists r, handler fetch req = ([Fetch d (forwarded_agent req)], Normal r)
              /\ carries_proxy_headers r
              /\ status r = status up.
Proof.
  intros fetch req d up Ht Hd Hf Hh Hs. apply status_ok_range in Hs.
  rewrite handler_default, (handler_with_fetched fetch _ req d Ht Hd),
    Hf, Hh, Hs.
  eexists. split; [reflexivity|]. split; [apply overlay_carries | reflexivity].
Qed.

Lemma html_branch_carries_proxy_headers_witness :
  exists r, handler Samples.upstream Samples.page_request
            = ([Fetch (lit "https://example.com/") (lit "Mozilla/5.0")],
               Normal r)
            /\ carries_proxy_headers r
            /\ status r = 200.
Proof.
  apply (html_branch_carries_proxy_headers Samples.upstream
           Samples.page_request (lit "https://example.com/")
           Samples.html_response); first [reflexivity | cbn; lia].
Defined.

(** C2, as stated, fails on the passthrough branch: the JSON response
    comes back without the two headers. *)
Lemma passthrough_lacks_proxy_headers :
  exists tr r,
    handler Samples.upstream Samples.json_request = (tr, Normal r)
    /\ ~ carries_proxy_headers r.
Proof.
  exists [Fetch (lit "https://example.com/data.json") (lit "Mozilla/5.0")].
  exists Samples.json_response. split; [reflexivity|].
  intros [H _]. discriminate H.
Qed.

(** The responses of the two error paths carry only a content type. *)
Lemma error_responses_lack_proxy_headers :
  (exists r, handler Samples.upstream Samples.empty_request = ([], Normal r)
             /\ Headers.get (headers r) (lit "X-Proxied-By") = None
             /\ Headers.get (headers r) (lit "content-type")
                = Some (lit "text/plain;charset=UTF-8"))
  /\ (exists tr r,
        handler Samples.upstream (mkRequest (lit "/proxy/nowhere") None)
        = (tr, Normal r)
        /\ status r = 500
        /\ Headers.get (headers r) (lit "X-Proxied-By") = None
        /\ Headers.get (headers r) (lit "content-type")
           = Some (lit "text/plain")).
Proof.
  split.
  - eexists. split; [reflexivity|]. split; reflexivity.
  - do 2 eexists. split; [reflexivity|]. repeat split; reflexivity.
Qed.

(** C10.  The handler does not read the blocklist: two configurations
    that agree on every other field give the same effects and the same
    completion, and whatever the blocklist holds, the first effect of a
    request with a target is the fetch of that target. *)
Theorem blocklist_is_not_consulted :
  forall (fetch : jsstring -> jsstring -> completion Response)
         (req : Request) (c1 c2 : Config),
    DEV_FEATURES c1 = DEV_FEATURES c2 ->
    ENCODING_KEY c1 = ENCODING_KEY c2 ->
    handler_with fetch (ret c1) req = handler_with fetch (ret c2) req
    /\ forall d, target req = Normal d -> truthy d = true ->
         exists tr out,
           handler_with fetch (ret c1) req
           = (Fetch d (forwarded_agent req) :: tr, out).
Proof.
  intros fetch req [f1 k1 b1] [f2 k2 b2] Hf Hk. cbn in Hf, Hk. subst. split.
  - reflexivity.
  - intros d Ht Hd. rewrite (handler_with_fetched fetch _ req d Ht Hd).
    destruct (fetch d (forwarded_agent req)) as [up|e];
      [destruct (declares_html up), (status_ok (status up))|];
      do 2 eexists; reflexivity.
Qed.

Lemma blocklist_is_not_consulted_witness :
  handler_with Samples.upstream (ret Samples.default_config)
               Samples.page_request
  = handler_with Samples.upstream (ret Samples.blocking_config)
                 Samples.page_request
  /\ forall d, target Samples.page_request = Normal d -> truthy d = true ->
       exists tr out,
         handler_with Samples.upstream (ret Samples.default_config)
                      Samples.page_request
         = (Fetch d (forwarded_agent Samples.page_request) :: tr, out).
Proof.
  apply (blocklist_is_not_consulted Samples.upstream Samples.page_request
           Samples.default_config Samples.blocking_config); reflexivity.
Defined.

(* ================================================================== *)
(** * The injection handlers *)
(* ================================================================== *)

Section Injection.

Variable config : Config.

Lemma bind_normal {A} (m : completion A) : (x <- m ;; Normal x) = m.
Proof. now destruct m. Qed.

Lemma transform_node_elem rw tag attrs children :
  transform_node rw (Elem tag attrs children)
  = (el <- dispatch rw (mkElement tag attrs []) ;;
     children' <- transform_nodes rw children ;;
     Normal (Elem tag (attributes el)
                  (children' ++ List.map Raw (appended el)))).
Proof.
  cbn [transform_node].
  destruct (dispatch rw _) as [el|e]; cbn [JS.bind]; [|reflexivity].
  f_equal. induction children as [|k l IH]; [reflexivity|].
  cbn [transform_nodes]. rewrite <- IH. reflexivity.
Qed.

Lemma count_raw_elem h tag attrs children :
  count_raw h (Elem tag attrs children) = count_raws h children.
Proof.
  cbn [count_raw]. induction children as [|k l IH]; [reflexivity|].
  cbn [count_raws]. rewrite <- IH. reflexivity.
Qed.

Lemma count_elem_elem tag t attrs children :
  count_elem tag (Elem t attrs children)
  = ((if eqb t tag then 1 else 0) + count_elems tag children)%nat.
Proof.
  cbn [count_elem]. f_equal. induction children as [|k l IH]; [reflexivity|].
  cbn [count_elems]. rewrite <- IH. reflexivity.
Qed.

Lemma count_raws_app h l1 l2 :
  count_raws h (l1 ++ l2) = (count_raws h l1 + count_raws h l2)%nat.
Proof.
  induction l1 as [|k l1 IH]; cbn [app count_raws]; [reflexivity|].
  rewrite IH. lia.
Qed.

(** The attribute rewriter keeps the tag and appends nothing. *)
Lemma rewrite_attribute_frame el el' attr :
  ElementHandler.rewrite_attribute el attr = Normal el' ->
  tagName el' = tagName el /\ appended el' = appended el.
Proof.
  unfold ElementHandler.rewrite_attribute.
  destruct (getAttribute el attr) as [value|]; [|now intros [= <-]].
  destruct (truthy value); [|now intros [= <-]].
  destruct (ElementHandler.rewriteUrl value); [|discriminate].
  cbn. now intros [= <-].
Qed.

Lemma forEach_frame names el el' :
  ElementHandler.forEach names el = Normal el' ->
  tagName el' = tagName el /\ appended el' = appended el.
Proof.
  revert el. induction names as [|attr names IH]; intros el; cbn.
  - now intros [= <-].
  - destruct (ElementHandler.rewrite_attribute el attr) as [el1|] eqn:E;
      [|discriminate].
    cbn. intros H. apply IH in H as [-> ->].
    now apply rewrite_attribute_frame in E.
Qed.

(** What the three handlers of the rewriter do to one element: the
    head and body handlers append their markup, then the attribute
    rewriter runs on the tags it is registered for. *)
Lemma dispatch_rewriter el :
  dispatch (rewriter config) el
  = let el1 := mkElement (tagName el) (attributes el)
                         (appended el ++ injected config (tagName el)) in
    if selects rewritten_tags (tagName el)
    then ElementHandler.element config el1
    else Normal el1.
Proof.
  destruct el as [tag attrs app0].
  unfold rewriter, on, HTMLRewriter.empty, injected, debug_enabled.
  cbn [app dispatch sel run tagName attributes appended].
  change (selects [lit "head"] tag) with (eqb tag (lit "head") || false).
  change (selects [lit "body"]) with (fun t => eqb t (lit "body") || false).
  fold rewritten_tags.
  unfold HeadHandler.element, BodyHandler.element, append.
  destruct (eqb tag (lit "head")) eqn:Hh;
    destruct (eqb tag (lit "body")) eqn:Hb;
    destruct (strict_ne_false (eruda (devFeatures config)));
    cbn [orb JS.bind tagName attributes appended app];
    rewrite ?Hb; cbn [orb JS.bind tagName attributes appended app];
    rewrite ?app_nil_r, <- ?app_assoc;
    destruct (selects rewritten_tags tag);
    rewrite ?bind_normal; reflexivity.
Qed.

End Injection.

Section InjectionCount.

Variable config : Config.

(** What [dispatch] leaves in [appended] at a start tag. *)
Lemma dispatch_appended tag attrs el :
  dispatch (rewriter config) (mkElement tag attrs []) = Normal el ->
  appended el = injected config tag.
Proof.
  rewrite dispatch_rewriter. cbn [tagName attributes appended app].
  destruct (selects rewritten_tags tag).
  - intros H. now apply forEach_frame in H as [_ ->].
  - now intros [= <-].
Qed.

Section Markup.

(** A piece of markup [h] that the handlers append [1] time to an
    element of tag [T] when [b] holds, and to no other element. *)
Variables (h T : jsstring) (b : bool).
Hypothesis injected_count :
  forall tag,
    count_raws h (List.map Raw (injected config tag))
    = when b (if eqb tag T then 1%nat else 0%nat).

Let counted (n : node) : Prop :=
  forall out, transform_node (rewriter config) n = Normal out ->
    count_raw h out = (count_raw h n + when b (count_elem T n))%nat.

Lemma counted_nodes l :
  Forall counted l ->
  forall out, transform_nodes (rewriter config) l = Normal out ->
    count_raws h out = (count_raws h l + when b (count_elems T l))%nat.
Proof.
  induction 1 as [|k l Hk _ IH]; cbn [transform_nodes]; intros out.
  - intros [= <-]. destruct b; reflexivity.
  - destruct (transform_node (rewriter config) k) as [k'|] eqn:Ek;
      [|discriminate]. cbn [JS.bind].
    destruct (transform_nodes (rewriter config) l) as [l'|] eqn:El;
      [|discriminate]. cbn [JS.bind]. intros [= <-].
    cbn [count_raws count_elems].
    rewrite (Hk k' Ek), (IH l' eq_refl).
    destruct b; cbn [when]; lia.
Qed.

Lemma counted_node n : counted n.
Proof.
  induction n as [s|r|tag attrs children IH] using node_ind;
    unfold counted; intros out.
  - intros [= <-]. destruct b; reflexivity.
  - intros [= <-]. destruct b; cbn [when count_elem]; lia.
  - rewrite transform_node_elem.
    destruct (dispatch (rewriter config) (mkElement tag attrs []))
      as [el|] eqn:Ed; [|discriminate]. cbn [JS.bind].
    destruct (transform_nodes (rewriter config) children) as [l'|] eqn:El;
      [|discriminate]. cbn [JS.bind]. intros [= <-].
    rewrite !count_raw_elem, count_elem_elem, count_raws_app.
    rewrite (counted_nodes children IH l' El).
    rewrite (dispatch_appended tag attrs el Ed), injected_count.
    destruct b, (eqb tag T); cbn [when]; lia.
Qed.

Lemma count_transform doc out :
  transform_nodes (rewriter config) doc = Normal out ->
  count_raws h out = (count_raws h doc + when b (count_elems T doc))%nat.
Proof.
  apply counted_nodes. apply Forall_forall. intros n _. apply counted_node.
Qed.

End Markup.

Lemma base_script_count tag :
  count_raws HeadHandler.base_script (List.map Raw (injected config tag))
  = when true (if eqb tag (lit "head") then 1%nat else 0%nat).
Proof.
  unfold injected.
  destruct (eqb tag (lit "head")), (eqb tag (lit "body")),
    (debug_enabled config); reflexivity.
Qed.

Lemma eruda_script_count tag :
  count_raws HeadHandler.eruda_script (List.map Raw (injected config tag))
  = when (debug_enabled config)
         (if eqb tag (lit "head") then 1%nat else 0%nat).
Proof.
  unfold injected.
  destruct (eqb tag (lit "head")), (eqb tag (lit "body")),
    (debug_enabled config); reflexivity.
Qed.

Lemma trigger_count tag :
  count_raws BodyHandler.trigger (List.map Raw (injected config tag))
  = when (debug_enabled config)
         (if eqb tag (lit "body") then 1%nat else 0%nat).
Proof.
  unfold injected.
  destruct (eqb tag (lit "head")), (eqb tag (lit "body")),
    (debug_enabled config); reflexivity.
Qed.

End InjectionCount.

(** C1, as stated, fails on a document with two [head] and two [body]
    elements: each markup is inserted twice. *)
Lemma two_heads_are_injected_twice :
  exists out,
    transform_nodes (rewriter Samples.default_config) Samples.two_heads
    = Normal out
    /\ ~ (count_raws HeadHandler.base_script out <= 1)%nat
    /\ ~ (count_raws HeadHandler.eruda_script out <= 1)%nat
    /\ ~ (count_raws BodyHandler.trigger out <= 1)%nat.
Proof.
  eexists. split; [reflexivity|].
  repeat split; vm_compute; lia.
Qed.

(* ================================================================== *)
(** * The attribute rewriter *)
(* ================================================================== *)

Section AttributeRewriter.

Implicit Types attrs pre post : list (jsstring * jsstring).

Lemma lookup_none attrs a :
  lookup attrs a = None -> ~ In a (List.map fst attrs).
Proof.
  induction attrs as [|[k v] attrs IH]; cbn [lookup List.map fst In].
  - tauto.
  - destruct (eqb k a) eqn:E; [discriminate|].
    apply eqb_neq in E. intros H [Hk|Hin]; [congruence | now apply IH].
Qed.

(** [getAttribute] finds the first attribute of the name, and
    [setAttribute] writes there. *)
Lemma lookup_split attrs a v :
  lookup attrs a = Some v ->
  exists pre post,
    attrs = pre ++ (a, v) :: post
    /\ ~ In a (List.map fst pre)
    /\ forall u, update attrs a u = pre ++ (a, u) :: post.
Proof.
  induction attrs as [|[k w] attrs IH]; cbn [lookup update]; [discriminate|].
  destruct (eqb k a) eqn:E.
  - apply eqb_eq in E as ->. intros [= ->].
    exists [], attrs. repeat split; cbn; tauto.
  - apply eqb_neq in E. intros H.
    destruct (IH H) as (pre & post & -> & Hpre & Hup).
    exists ((k, w) :: pre), post. repeat split.
    + cbn [List.map fst In]. intros [Hk|Hin]; [congruence | tauto].
    + intros u. now rewrite Hup.
Qed.

Lemma first_named_cons kv attrs i k :
  first_named (kv :: attrs) (S i) k <-> fst kv <> k /\ first_named attrs i k.
Proof. unfold first_named. cbn [firstn List.map In]. tauto. Qed.

Lemma first_named_names attrs attrs' i k :
  List.map fst attrs' = List.map fst attrs ->
  first_named attrs' i k <-> first_named attrs i k.
Proof.
  intros H. unfold first_named. now rewrite <- !firstn_map, H.
Qed.

(** Replacing the value at the first attribute named [a]. *)
Lemma nth_split pre a v0 u post :
  ~ In a (List.map fst pre) ->
  forall i k v,
    nth_error (pre ++ (a, v0) :: post) i = Some (k, v) ->
    exists v',
      nth_error (pre ++ (a, u) :: post) i = Some (k, v')
      /\ (k = a -> first_named (pre ++ (a, v0) :: post) i k ->
          v = v0 /\ v' = u)
      /\ (~ (k = a /\ first_named (pre ++ (a, v0) :: post) i k) -> v' = v).
Proof.
  induction pre as [|[k0 w] pre IH]; intros Hpre [|i] k v;
    cbn [app nth_error List.map fst In] in *.
  - intros [= <- <-]. exists u. split; [reflexivity|]. split; [tauto|].
    intros H. exfalso. apply H. split; [reflexivity|].
    unfold first_named. cbn. tauto.
  - intros H. exists v. split; [exact H|]. split; [|reflexivity].
    intros -> Hf. exfalso. apply Hf. cbn. tauto.
  - intros [= <- <-]. exists w. split; [reflexivity|].
    split; [|reflexivity]. intros ->. tauto.
  - intros H. destruct (IH ltac:(tauto) i k v H) as (v' & Hn & Hp & Hq).
    exists v'. split; [exact Hn|]. split.
    + intros Hk Hf. apply first_named_cons in Hf as [_ Hf]. now apply Hp.
    + intros Hnot. apply Hq. intros [Hk Hf]. apply Hnot.
      split; [exact Hk|]. apply first_named_cons. cbn [fst].
      split; [subst k; tauto | exact Hf].
Qed.

Lemma map_fst_split pre a v0 u post :
  List.map fst (pre ++ (a, u) :: post)
  = List.map fst (pre ++ (a, v0) :: post).
Proof. now rewrite !map_app. Qed.

Lemma rewritten_by_refl names attrs :
  (forall a, In a names -> lookup attrs a = None \/ lookup attrs a = Some [])
  -> rewritten_by names attrs attrs.
Proof.
  intros Hn. split; [reflexivity|]. intros i k v Hi.
  exists v. split; [exact Hi|]. split; [|reflexivity].
  intros Hk Hf. destruct (Hn k Hk) as [Hl|Hl].
  - apply lookup_none in Hl. exfalso. apply Hl.
    apply nth_error_In in Hi. now apply (in_map fst) in Hi.
  - destruct (lookup_split attrs k [] Hl) as (pre & post & -> & Hpre & _).
    destruct (nth_split pre k [] [] post Hpre i k v Hi) as (v' & _ & Hp & _).
    destruct (Hp eq_refl Hf) as [-> _]. reflexivity.
Qed.

(** One turn of the [forEach] loop. *)
Lemma rewrite_attribute_spec el el' a :
  ElementHandler.rewrite_attribute el a = Normal el' ->
  rewritten_by [a] (attributes el) (attributes el').
Proof.
  unfold ElementHandler.rewrite_attribute, getAttribute.
  destruct (lookup (attributes el) a) as [v0|] eqn:Hl.
  - destruct v0 as [|c v0].
    + cbn [truthy]. intros [= <-]. apply rewritten_by_refl.
      intros a' [<-|[]]. now right.
    + cbn [truthy].
      destruct (ElementHandler.rewriteUrl (c :: v0)) as [u|] eqn:Hu;
        [|discriminate].
      cbn [JS.bind]. intros [= <-]. cbn [setAttribute attributes].
      destruct (lookup_split _ _ _ Hl) as (pre & post & Ha & Hpre & Hup).
      rewrite Hup, Ha. split; [apply map_fst_split|].
      intros i k v Hi.
      destruct (nth_split pre a (c :: v0) u post Hpre i k v Hi)
        as (v' & Hn & Hp & Hq).
      exists v'. split; [exact Hn|]. split.
      * intros [<-|[]] Hf. destruct (Hp eq_refl Hf) as [-> ->]. exact Hu.
      * intros Hnot. apply Hq. intros [-> Hf]. apply Hnot.
        split; [now left | exact Hf].
  - intros [= <-]. apply rewritten_by_refl. intros a' [<-|[]]. now left.
Qed.

Lemma rewritten_by_cons a names attrs attrs1 attrs2 :
  ~ In a names ->
  rewritten_by [a] attrs attrs1 ->
  rewritten_by names attrs1 attrs2 ->
  rewritten_by (a :: names) attrs attrs2.
Proof.
  intros Ha [Hm1 H1] [Hm2 H2]. split; [congruence|].
  intros i k v Hi.
  destruct (H1 i k v Hi) as (v1 & Hi1 & Hp1 & Hq1).
  destruct (H2 i k v1 Hi1) as (v2 & Hi2 & Hp2 & Hq2).
  exists v2. split; [exact Hi2|].
  assert (first_named attrs1 i k <-> first_named attrs i k) as Hfirst
    by now apply first_named_names.
  destruct (list_eq_dec Z.eq_dec a k) as [->|Hne].
  - assert (v2 = v1) as -> by (apply Hq2; tauto).
    split.
    + intros _ Hf. apply Hp1; [now left | exact Hf].
    + intros Hnot. apply Hq1. intros [_ Hf]. apply Hnot.
      split; [now left | exact Hf].
  - assert (v1 = v) as -> by (apply Hq1; intros [[?|[]] _]; congruence).
    split.
    + intros [?|Hin] Hf; [congruence|]. apply Hp2; tauto.
    + intros Hnot. apply Hq2. intros [Hin Hf]. apply Hnot.
      split; [now right | tauto].
Qed.

Lemma forEach_spec names :
  NoDup names ->
  forall el el',
    ElementHandler.forEach names el = Normal el' ->
    rewritten_by names (attributes el) (attributes el').
Proof.
  induction 1 as [|a names Ha _ IH]; intros el el';
    cbn [ElementHandler.forEach].
  - intros [= <-]. split; [reflexivity|]. intros i k v Hi.
    exists v. split; [exact Hi|]. split; [intros []|reflexivity].
  - destruct (ElementHandler.rewrite_attribute el a) as [el1|] eqn:E1;
      [|discriminate].
    cbn [JS.bind]. intros E2.
    apply (rewritten_by_cons a names _ (attributes el1)); auto.
    now apply rewrite_attribute_spec.
Qed.

Lemma attrs_NoDup : NoDup ElementHandler.attrs.
Proof.
  unfold ElementHandler.attrs.
  repeat (constructor; [cbn [In]; intros H; decompose sum H; discriminate|]).
  constructor.
Qed.

End AttributeRewriter.

(* ================================================================== *)
(** * The rewriter completes on well-formed markup *)
(* ================================================================== *)

Section Totality.

Import URI.

Let ascii (c : Z) : Prop := 0 <= c < 128.

Ltac cases :=
  repeat match goal with
  | |- context [?a <? ?b] => destruct (Z.ltb_spec a b)
  | |- context [?a <=? ?b] => destruct (Z.leb_spec a b)
  end.

Ltac arith := try solve [Z.div_mod_to_equations; lia
                        | exfalso; Z.div_mod_to_equations; lia].

Lemma ascii_well_formed s : Forall ascii s -> well_formed s = true.
Proof.
  induction 1 as [|c s Hc _ IH]; [reflexivity|]. unfold ascii in Hc.
  cbn [well_formed]. rewrite IH. unfold is_lead, is_trail.
  cases; cbn [andb negb]; lia || reflexivity.
Qed.

Lemma hex_digit_ascii d : 0 <= d < 16 -> ascii (hex_digit d).
Proof. unfold ascii, hex_digit. cases; lia. Qed.

Lemma escape_octet_ascii b : 0 <= b < 256 -> Forall ascii (escape_octet b).
Proof.
  intros Hb. unfold escape_octet.
  repeat constructor; try apply hex_digit_ascii; unfold ascii; arith.
Qed.

Lemma escaped_ascii cp :
  scalar cp -> Forall ascii (escape_octets (utf8_octets cp)).
Proof.
  intros [Hr _]. unfold utf8_octets, escape_octets.
  cases; cbn [flat_map]; rewrite ?app_nil_r;
    repeat (apply Forall_app; split); apply escape_octet_ascii; arith.
Qed.

(** The encoding of a well-formed string is there, and is ASCII. *)
Lemma encode_ascii n :
  forall s, (List.length s <= n)%nat -> well_formed s = true ->
  exists e, encodeURIComponent s = Normal e /\ Forall ascii e.
Proof.
  induction n as [|n IH]; intros [|c rest] Hlen Hwf;
    try (exists []; split; [reflexivity | constructor]);
    cbn [List.length] in Hlen; [lia|].
  cbn [encodeURIComponent well_formed] in *.
  destruct (unescaped c) eqn:Hu.
  - pose proof (unescaped_ascii c Hu) as Hc.
    assert (is_lead c = false) as Hl
      by (unfold is_lead; cases; cbn [andb]; lia || reflexivity).
    rewrite Hl in Hwf. apply andb_true_iff in Hwf as [_ Hwf].
    destruct (IH rest ltac:(lia) Hwf) as (e & -> & He).
    exists (c :: e). split; [reflexivity | now constructor].
  - destruct (is_lead c) eqn:Hl.
    + destruct rest as [|lo rest']; [discriminate|].
      apply andb_true_iff in Hwf as [Ht Hwf]. rewrite Ht.
      cbn [List.length] in Hlen.
      destruct (IH rest' ltac:(lia) Hwf) as (e & -> & He).
      eexists. split; [reflexivity|]. apply Forall_app. split; [|exact He].
      now apply escaped_ascii, pair_scalar.
    + apply andb_true_iff in Hwf as [Hc Hwf].
      apply andb_true_iff in Hc as [Hc Ht].
      apply andb_true_iff in Hc as [Hlo Hhi].
      apply negb_true_iff in Ht. rewrite Ht.
      destruct (IH rest ltac:(lia) Hwf) as (e & -> & He).
      eexists. split; [reflexivity|]. apply Forall_app. split; [|exact He].
      apply escaped_ascii. revert Hl Ht. unfold is_lead, is_trail, scalar.
      apply Z.leb_le in Hlo. apply Z.ltb_lt in Hhi.
      cases; cbn [andb]; intros; lia || discriminate.
Qed.

Lemma rewriteUrl_total v :
  well_formed v = true ->
  exists u, ElementHandler.rewriteUrl v = Normal u /\ well_formed u = true.
Proof.
  intros Hv. unfold ElementHandler.rewriteUrl.
  destruct (negb (truthy v) || startsWith v (lit "data:")
            || startsWith v (lit "javascript:")).
  - now exists v.
  - destruct (encode_ascii _ v (le_n _) Hv) as (e & -> & He).
    eexists. split; [reflexivity|]. apply ascii_well_formed.
    apply Forall_app. split; [|exact He].
    unfold ascii. repeat constructor; lia.
Qed.

Lemma lookup_well_formed attrs a v :
  values_well_formed attrs = true -> lookup attrs a = Some v ->
  well_formed v = true.
Proof.
  induction attrs as [|[k w] attrs IH];
    cbn [values_well_formed forallb lookup snd]; [discriminate|].
  intros H. apply andb_true_iff in H as [Hw H].
  destruct (eqb k a); [now intros [= <-] | now apply IH].
Qed.

Lemma update_well_formed attrs a u :
  values_well_formed attrs = true -> well_formed u = true ->
  values_well_formed (update attrs a u) = true.
Proof.
  intros H Hu. induction attrs as [|[k w] attrs IH];
    cbn [values_well_formed forallb update snd] in *.
  - now rewrite Hu.
  - apply andb_true_iff in H as [Hw H].
    destruct (eqb k a); cbn [forallb snd].
    + now rewrite Hu.
    + rewrite Hw. now apply IH.
Qed.

Lemma rewrite_attribute_total el a :
  values_well_formed (attributes el) = true ->
  exists el', ElementHandler.rewrite_attribute el a = Normal el'
              /\ values_well_formed (attributes el') = true.
Proof.
  intros H. unfold ElementHandler.rewrite_attribute, getAttribute.
  destruct (lookup (attributes el) a) as [v|] eqn:Hl; [|now exists el].
  destruct (truthy v); [|now exists el].
  destruct (rewriteUrl_total v (lookup_well_formed _ _ _ H Hl))
    as (u & -> & Hu).
  eexists. split; [reflexivity|]. now apply update_well_formed.
Qed.

Lemma forEach_total names :
  forall el, values_well_formed (attributes el) = true ->
  exists el', ElementHandler.forEach names el = Normal el'.
Proof.
  induction names as [|a names IH]; intros el H;
    cbn [ElementHandler.forEach]; [now exists el|].
  destruct (rewrite_attribute_total el a H) as (el1 & -> & H1).
  now apply IH.
Qed.

Lemma dispatch_total config el :
  values_well_formed (attributes el) = true ->
  exists el', dispatch (rewriter config) el = Normal el'.
Proof.
  intros H. rewrite dispatch_rewriter. cbv zeta.
  destruct (selects rewritten_tags (tagName el)); [|eauto].
  now apply forEach_total.
Qed.

Lemma node_well_formed_elem tag attrs children :
  node_well_formed (Elem tag attrs children)
  = values_well_formed attrs && nodes_well_formed children.
Proof.
  reflexivity.
Qed.

Lemma transform_nodes_total config l :
  Forall (fun n => node_well_formed n = true ->
                   exists out, transform_node (rewriter config) n = Normal out)
         l ->
  nodes_well_formed l = true ->
  exists out, transform_nodes (rewriter config) l = Normal out.
Proof.
  induction 1 as [|k l Hk _ IH]; cbn [nodes_well_formed transform_nodes];
    [now exists []|].
  intros H. apply andb_true_iff in H as [Hwk Hwl].
  destruct (Hk Hwk) as [k' ->]. destruct (IH Hwl) as [l' ->]. now eexists.
Qed.

Lemma transform_node_total config n :
  node_well_formed n = true ->
  exists out, transform_node (rewriter config) n = Normal out.
Proof.
  induction n as [s|r|tag attrs children IH] using node_ind;
    [now eexists | now eexists |].
  rewrite node_well_formed_elem, transform_node_elem.
  intros H. apply andb_true_iff in H as [Ha Hc].
  destruct (dispatch_total config (mkElement tag attrs []) Ha) as [el ->].
  destruct (transform_nodes_total config children IH Hc) as [l' ->].
  now eexists.
Qed.

Lemma transform_total config doc :
  nodes_well_formed doc = true ->
  exists out, transform_nodes (rewriter config) doc = Normal out.
Proof.
  apply transform_nodes_total, Forall_forall. intros n _.
  apply transform_node_total.
Qed.

End Totality.

(* ================================================================== *)
(** * What the rewriter does to a document *)
(* ================================================================== *)

(** C1, as the code has it.  The handlers keep no record of having run:
    the bootstrap script is inserted once for every [head] element of the
    document, the debug-tool script once for every [head] element and the
    debug trigger once for every [body] element when the debug flag is not
    [false].  So a document with one [head] and one [body] gets each
    markup once, and a document without them gets none.  The rewriter
    completes on every document whose attribute values are well formed. *)
Theorem injection_once_per_element :
  forall (config : Config) (doc : list node),
    (nodes_well_formed doc = true ->
     exists out, transform_nodes (rewriter config) doc = Normal out)
    /\ forall out,
         transform_nodes (rewriter config) doc = Normal out ->
         count_raws HeadHandler.base_script out
         = (count_raws HeadHandler.base_script doc
            + count_elems (lit "head") doc)%nat
         /\ count_raws HeadHandler.eruda_script out
            = (count_raws HeadHandler.eruda_script doc
               + when (debug_enabled config) (count_elems (lit "head") doc))%nat
         /\ count_raws BodyHandler.trigger out
            = (count_raws BodyHandler.trigger doc
               + when (debug_enabled config) (count_elems (lit "body") doc))%nat.
Proof.
  intros config doc. split; [apply transform_total|].
  intros out H. repeat split.
  - apply (count_transform config _ _ true (base_script_count config) doc out H).
  - apply (count_transform config _ _ _ (eruda_script_count config) doc out H).
  - apply (count_transform config _ _ _ (trigger_count config) doc out H).
Qed.

Lemma injection_once_per_element_witness :
  exists out,
    transform_nodes (rewriter Samples.default_config) Samples.page = Normal out
    /\ count_raws HeadHandler.base_script out = 1%nat
    /\ count_raws HeadHandler.eruda_script out = 1%nat
    /\ count_raws BodyHandler.trigger out = 1%nat.
Proof.
  destruct (injection_once_per_element Samples.default_config Samples.page)
    as [Htotal Hcount].
  destruct (Htotal eq_refl) as [out Hout].
  exists out. split; [exact Hout|]. exact (Hcount out Hout).
Defined.

(** What the two handlers append, by the value of the flag; the rewriter
    runs them on the [head] and the [body] element. *)
Lemma handlers_follow_the_flag :
  forall (config : Config) (el : Element),
    let flag := eruda (devFeatures config) in
    (DEV_FEATURES config = None -> flag = Undefined)
    /\ (flag = Boolean false ->
        HeadHandler.element config el
        = Normal (append el HeadHandler.base_script)
        /\ BodyHandler.element config el = Normal el)
    /\ (flag <> Boolean false ->
        HeadHandler.element config el
        = Normal (append (append el HeadHandler.base_script)
                         HeadHandler.eruda_script)
        /\ BodyHandler.element config el
           = Normal (append el BodyHandler.trigger))
    /\ (forall attrs,
          dispatch (rewriter config) (mkElement (lit "head") attrs [])
          = HeadHandler.element config (mkElement (lit "head") attrs [])
          /\ dispatch (rewriter config) (mkElement (lit "body") attrs [])
             = BodyHandler.element config (mkElement (lit "body") attrs [])).
Proof.
  intros config el flag. subst flag. repeat split.
  - unfold devFeatures. now intros ->.
  - unfold HeadHandler.element. now rewrite H.
  - unfold BodyHandler.element. now rewrite H.
  - unfold HeadHandler.element.
    destruct (eruda (devFeatures config)) as [| |[|]| |]; try reflexivity.
    now contradiction H.
  - unfold BodyHandler.element.
    destruct (eruda (devFeatures config)) as [| |[|]| |]; try reflexivity.
    now contradiction H.
  - rewrite dispatch_rewriter. unfold HeadHandler.element, injected, debug_enabled.
    cbn. now destruct (strict_ne_false (eruda (devFeatures config))).
  - rewrite dispatch_rewriter. unfold BodyHandler.element, injected, debug_enabled.
    cbn. now destruct (strict_ne_false (eruda (devFeatures config))).
Qed.





(** C8.  On an element of a tag that the attribute rewriter is not
    registered for, the rewriter leaves every attribute as it is.  On an
    element of the tags [a], [link], [script], [img], [iframe] and [form]
    the names of the attributes and their order stay; the value of the
    first attribute named [href], [src], [action] or [data] becomes its
    [rewriteUrl]; every attribute of another name keeps its value, as does
    a repeated attribute after the first of its name.  The rewriter
    completes when the attribute values are well formed. *)
Theorem attribute_rewriter_frame :
  forall (config : Config) (el : Element),
    (values_well_formed (attributes el) = true ->
     exists el', dispatch (rewriter config) el = Normal el')
    /\ forall el',
         dispatch (rewriter config) el = Normal el' ->
         List.map fst (attributes el') = List.map fst (attributes el)
         /\ (selects rewritten_tags (tagName el) = false ->
             attributes el' = attributes el)
         /\ (selects rewritten_tags (tagName el) = true ->
             forall i k v,
               nth_error (attributes el) i = Some (k, v) ->
               exists v',
                 nth_error (attributes el') i = Some (k, v')
                 /\ (In k ElementHandler.attrs ->
                     first_named (attributes el) i k ->
                     ElementHandler.rewriteUrl v = Normal v')
                 /\ (~ In k ElementHandler.attrs -> v' = v)
                 /\ (~ first_named (attributes el) i k -> v' = v)).
Proof.
  intros config el. split; [apply dispatch_total|].
  intros el'. rewrite dispatch_rewriter. cbv zeta.
  destruct (selects rewritten_tags (tagName el)).
  - intros H. apply (forEach_spec _ attrs_NoDup) in H as [Hnames Hvalues].
    cbn [attributes] in *. split; [exact Hnames|]. split; [discriminate|].
    intros _ i k v Hi. destruct (Hvalues i k v Hi) as (v' & Hn & Hp & Hq).
    exists v'. split; [exact Hn|]. split; [exact Hp|].
    split; intros Hnot; apply Hq; tauto.
  - intros [= <-]. cbn [attributes]. split; [reflexivity|].
    split; [reflexivity | discriminate].
Qed.

Lemma attribute_rewriter_frame_witness :
  exists el' v',
    dispatch (rewriter Samples.default_config) Samples.anchor = Normal el'
    /\ nth_error (attributes el') 0 = Some (lit "title", lit "x")
    /\ nth_error (attributes el') 1 = Some (lit "href", v')
    /\ ElementHandler.rewriteUrl (lit "https://example.com/x") = Normal v'.
Proof.
  destruct (attribute_rewriter_frame Samples.default_config Samples.anchor)
    as [Htotal Hframe].
  destruct (Htotal eq_refl) as [el' Hel].
  destruct (Hframe el' Hel) as (_ & _ & Hvalues).
  destruct (Hvalues eq_refl 0%nat (lit "title") (lit "x") eq_refl)
    as (t & Ht & _ & Hkeep & _).
  destruct (Hvalues eq_refl 1%nat (lit "href") (lit "https://example.com/x")
                    eq_refl)
    as (v' & Hv & Hre & _).
  exists el', v'. split; [exact Hel|]. split; [|split].
  - rewrite Ht. do 2 f_equal. apply Hkeep.
    cbn. intros H. decompose sum H; discriminate.
  - exact Hv.
  - apply Hre.
    + cbn. tauto.
    + unfold first_named. cbn. intros H. decompose sum H; discriminate.
Defined.

(* ================================================================== *)
(** * The URL codec *)
(* ================================================================== *)

Section ProxyPath.

(** The URL parser of the browser. *)
Variable href : jsstring -> completion jsstring.

(** The client leaves the empty string and the three schemes alone. *)
Lemma client_rewrite_identity url :
  truthy url = false \/ startsWith url (lit "data:") = true
  \/ startsWith url (lit "javascript:") = true
  \/ startsWith url (lit "blob:") = true ->
  URLUtils.rewrite href url = url.
Proof.
  unfold URLUtils.rewrite.
  intros [-> | [-> | [-> | ->]]]; cbn [negb orb]; rewrite ?orb_true_r; reflexivity.
Qed.

(** The server leaves the empty string and two of the schemes alone. *)
Lemma server_rewrite_identity url :
  truthy url = false \/ startsWith url (lit "data:") = true
  \/ startsWith url (lit "javascript:") = true ->
  ElementHandler.rewriteUrl url = Normal url.
Proof.
  unfold ElementHandler.rewriteUrl.
  intros [-> | [-> | ->]]; cbn [negb orb]; rewrite ?orb_true_r; reflexivity.
Qed.

End ProxyPath.

(** C3.  The server's [rewriteUrl] does not test for [blob:]: the URL
    [blob:https://example.com/0] is encoded and routed through [/proxy/],
    where the client's [rewrite] returns it unchanged. *)
Theorem server_rewrites_blob_urls :
  ElementHandler.rewriteUrl (lit "blob:https://example.com/0")
  = Normal (lit "/proxy/blob%3Ahttps%3A%2F%2Fexample.com%2F0")
  /\ forall href,
       URLUtils.rewrite href (lit "blob:https://example.com/0")
       = lit "blob:https://example.com/0".
Proof. split; reflexivity. Qed.

(** C5, as the code has it.  For a URL [u] that the parser accepts, with
    the normal form [n], and that is neither empty nor of the schemes
    [data:], [javascript:] and [blob:]: [decode (encode u)] is [n]; the
    client's [rewrite u] is [/proxy/] followed by a token that decodes to
    [n]; and the server's [rewriteUrl u], which does not normalise, is
    [/proxy/] followed by a token that decodes to [u] itself when [u] is
    well formed. *)
Theorem codec_round_trip :
  forall (href : jsstring -> completion jsstring) (u n : jsstring),
    href u = Normal n -> well_formed n = true ->
    truthy u = true ->
    startsWith u (lit "data:") = false ->
    startsWith u (lit "javascript:") = false ->
    startsWith u (lit "blob:") = false ->
    URLUtils.decode (URLUtils.encode href u) = n
    /\ (exists e, URLUtils.rewrite href u = lit "/proxy/" ++ e
                  /\ URLUtils.decode e = n)
    /\ (well_formed u = true ->
        exists e, ElementHandler.rewriteUrl u = Normal (lit "/proxy/" ++ e)
                  /\ URI.decodeURIComponent e = Normal u).
Proof.
  intros href u n Hn Hwf Hu Hd Hj Hb.
  destruct (decode_encode n Hwf) as (e & He & Hde).
  assert (URLUtils.encode href u = e) as Henc
    by (unfold URLUtils.encode; rewrite Hn; cbn [JS.bind]; now rewrite He).
  assert (URLUtils.decode e = n) as Hdec
    by (unfold URLUtils.decode; now rewrite Hde).
  split; [now rewrite Henc|]. split.
  - exists e. split; [|exact Hdec].
    unfold URLUtils.rewrite. rewrite Hu, Hd, Hj, Hb, Henc. reflexivity.
  - intros Hwu. destruct (decode_encode u Hwu) as (e' & He' & Hde').
    exists e'. split; [|exact Hde'].
    unfold ElementHandler.rewriteUrl. rewrite Hu, Hd, Hj, He'. reflexivity.
Qed.

Lemma codec_round_trip_witness :
  URLUtils.decode (URLUtils.encode Samples.href (lit "https://example.com"))
  = lit "https://example.com/"
  /\ (exists e,
        URLUtils.rewrite Samples.href (lit "https://example.com")
        = lit "/proxy/" ++ e
        /\ URLUtils.decode e = lit "https://example.com/")
  /\ (well_formed (lit "https://example.com") = true ->
      exists e,
        ElementHandler.rewriteUrl (lit "https://example.com")
        = Normal (lit "/proxy/" ++ e)
        /\ URI.decodeURIComponent e = Normal (lit "https://example.com")).
Proof.
  apply (codec_round_trip Samples.href (lit "https://example.com")
           (lit "https://example.com/")); reflexivity.
Defined.

(** C5, as stated, fails where the parser changes the URL: the token of
    [https://example.com] decodes to [https://example.com/], not to the
    URL itself. *)
Lemma proxy_path_recovers_the_normal_form :
  exists e,
    URLUtils.rewrite Samples.href (lit "https://example.com")
    = lit "/proxy/" ++ e
    /\ URLUtils.decode e = lit "https://example.com/"
    /\ URLUtils.decode e <> lit "https://example.com".
Proof.
  exists (lit "https%3A%2F%2Fexample.com%2F").
  split; [reflexivity|]. split; [reflexivity|]. discriminate.
Qed.

(* ================================================================== *)
(** * Further properties of the edge handler *)
(* ================================================================== *)

Section HandlerMore.

Variable fetch : jsstring -> jsstring -> completion Response.

(** The handler when the path does not decode, or decodes to the empty
    string. *)
Lemma handler_undecodable req e :
  target req = Throw e -> handler fetch req = ([], Throw e).
Proof.
  intros Ht. unfold handler, handler_with. fold (target req).
  rewrite Ht. reflexivity.
Qed.

Lemma handler_empty_target req d :
  target req = Normal d -> truthy d = false ->
  handler fetch req
  = ([], Normal (Response_of_text (lit "Missing target URL") 400 [])).
Proof.
  intros Ht Hd. unfold handler, handler_with. fold (target req).
  rewrite Ht. unfold lift, await at 1. rewrite Hd. reflexivity.
Qed.

Lemma proxy_prefix_removed e :
  replace (lit "/proxy/" ++ e) (lit "/proxy/") [] = e.
Proof. destruct e; reflexivity. Qed.

End HandlerMore.

(** X1.  When the upstream fetch rejects, the handler logs the error and
    answers with status 500, the content type [text/plain] and the body
    [Proxy Error: ] followed by the message of the error; the fetch was
    the only call to the upstream. *)
Theorem upstream_failure_is_500 :
  forall (fetch : jsstring -> jsstring -> completion Response)
         (req : Request) (d : jsstring) (e : Error),
    target req = Normal d -> truthy d = true ->
    fetch d (forwarded_agent req) = Throw e ->
    exists r,
      handler fetch req
      = ([Fetch d (forwarded_agent req); ConsoleError (lit "Proxy error:") e],
         Normal r)
      /\ status r = 500
      /\ headers r = [(lit "Content-Type", lit "text/plain")]
      /\ body r = Stream [Text (lit "Proxy Error: " ++ message e)].
Proof.
  intros fetch req d e Ht Hd Hf.
  rewrite handler_default, (handler_with_fetched fetch _ req d Ht Hd), Hf.
  eexists. split; [reflexivity|]. repeat split.
Qed.

Lemma upstream_failure_is_500_witness :
  exists r,
    handler Cases.offline Samples.page_request
    = ([Fetch (lit "https://example.com/") (lit "Mozilla/5.0");
        ConsoleError (lit "Proxy error:")
                     (mkError TypeError (lit "fetch failed"))],
       Normal r)
    /\ status r = 500
    /\ headers r = [(lit "Content-Type", lit "text/plain")]
    /\ body r = Stream [Text (lit "Proxy Error: fetch failed")].
Proof.
  apply (upstream_failure_is_500 Cases.offline Samples.page_request
           (lit "https://example.com/")
           (mkError TypeError (lit "fetch failed"))); reflexivity.
Defined.

(** X2.  The handler rejects exactly when the path does not decode, and
    then with the error of [decodeURIComponent] and without any effect;
    whenever the path decodes it answers with a response, whatever the
    upstream does. *)
Theorem handler_rejects_only_on_undecodable_path :
  forall (fetch : jsstring -> jsstring -> completion Response) (req : Request),
    (forall e, target req = Throw e -> handler fetch req = ([], Throw e))
    /\ (forall d, target req = Normal d ->
        exists tr r, handler fetch req = (tr, Normal r)).
Proof.
  intros fetch req. split.
  - apply handler_undecodable.
  - intros d Ht. destruct (truthy d) eqn:Hd.
    + rewrite handler_default, (handler_with_fetched fetch _ req d Ht Hd).
      destruct (fetch d (forwarded_agent req)) as [up|e];
        [destruct (declares_html up), (status_ok (status up))|];
        now do 2 eexists.
    + rewrite (handler_empty_target fetch req d Ht Hd). now do 2 eexists.
Qed.

Lemma witness_of_handler_rejects :
  handler Cases.offline Samples.bad_escape_request = ([], Throw URI.malformed)
  /\ exists tr r, handler Cases.offline Samples.page_request = (tr, Normal r).
Proof.
  destruct (handler_rejects_only_on_undecodable_path
              Cases.offline Samples.bad_escape_request) as [Hbad _].
  destruct (handler_rejects_only_on_undecodable_path
              Cases.offline Samples.page_request) as [_ Hgood].
  split.
  - apply Hbad. reflexivity.
  - apply (Hgood (lit "https://example.com/")). reflexivity.
Defined.

(** X3.  A request makes at most one upstream fetch, and that fetch is
    for the decoded, non-empty target of the request, with the
    [user-agent] of the request, or with [Mozilla/5.0] when the request
    has none or an empty one. *)
Theorem handler_fetches_the_target_once :
  forall (fetch : jsstring -> jsstring -> completion Response) (req : Request),
    (List.length (fetches (fst (handler fetch req))) <= 1)%nat
    /\ (forall t a,
          In (t, a) (fetches (fst (handler fetch req))) ->
          target req = Normal t /\ truthy t = true
          /\ a = forwarded_agent req)
    /\ (forall a, user_agent req = Some a -> truthy a = true ->
                  forwarded_agent req = a)
    /\ (user_agent req = None \/ user_agent req = Some [] ->
        forwarded_agent req = lit "Mozilla/5.0").
Proof.
  intros fetch req.
  assert (fetches (fst (handler fetch req)) = []
          \/ exists d, target req = Normal d /\ truthy d = true
                       /\ fetches (fst (handler fetch req))
                          = [(d, forwarded_agent req)]) as Hcases.
  { destruct (target req) as [d|e] eqn:Ht.
    - destruct (truthy d) eqn:Hd.
      + right. exists d. repeat split; [exact Hd|].
        rewrite handler_default, (handler_with_fetched fetch _ req d Ht Hd).
        destruct (fetch d (forwarded_agent req)) as [up|e];
          [destruct (declares_html up), (status_ok (status up))|];
          reflexivity.
      + left. now rewrite (handler_empty_target fetch req d Ht Hd).
    - left. now rewrite (handler_undecodable fetch req e Ht). }
  split; [|split; [|split]].
  - destruct Hcases as [-> | (d & _ & _ & ->)]; cbn; lia.
  - intros t a Hin. destruct Hcases as [H | (d & Ht & Hd & H)];
      rewrite H in Hin; [destruct Hin|].
    destruct Hin as [[= <- <-]|[]]. now repeat split.
  - intros a Ha Hnonempty. unfold forwarded_agent, or_else.
    now rewrite Ha, Hnonempty.
  - intros [Ha|Ha]; unfold forwarded_agent, or_else; now rewrite Ha.
Qed.

Lemma handler_fetches_the_target_once_witness :
  fetches (fst (handler Samples.upstream Cases.page_with_agent))
  = [(lit "https://example.com/", lit "curl/8.0")]
  /\ forwarded_agent Samples.page_request = lit "Mozilla/5.0".
Proof.
  destruct (handler_fetches_the_target_once
              Samples.upstream Cases.page_with_agent) as (_ & _ & Hagent & _).
  destruct (handler_fetches_the_target_once
              Samples.upstream Samples.page_request) as (_ & _ & _ & Hnone).
  split; [reflexivity|]. apply Hnone. now left.
Defined.

(** X4.  On the HTML branch, for an upstream status within 200..599,
    the response has the body of the rewriter, and every upstream header
    other than [X-Proxied-By] and [Access-Control-Allow-Origin] reads as
    it did upstream; the upstream's own values of those two are
    replaced. *)
Theorem html_branch_keeps_other_headers :
  forall (fetch : jsstring -> jsstring -> completion Response)
         (req : Request) (d : jsstring) (up : Response),
    target req = Normal d -> truthy d = true ->
    fetch d (forwarded_agent req) = Normal up ->
    declares_html up = true ->
    200 <= status up <= 599 ->
    exists r,
      snd (handler fetch req) = Normal r
      /\ body r = body (transform (rewriter Samples.default_config) up)
      /\ forall n,
           eqb_nocase (lit "X-Proxied-By") n = false ->
           eqb_nocase (lit "Access-Control-Allow-Origin") n = false ->
           Headers.get (headers r) n = Headers.get (headers up) n.
Proof.
  intros fetch req d up Ht Hd Hf Hh Hs. apply status_ok_range in Hs.
  rewrite handler_default, (handler_with_fetched fetch _ req d Ht Hd),
    Hf, Hh, Hs.
  eexists. split; [reflexivity|]. split; [reflexivity|].
  intros n H1 H2. cbn [headers].
  now rewrite !get_set_other.
Qed.

Lemma html_branch_keeps_other_headers_witness :
  exists r,
    snd (handler Cases.cached_upstream Samples.page_request) = Normal r
    /\ Headers.get (headers r) (lit "Cache-Control") = Some (lit "max-age=60")
    /\ Headers.get (headers r) (lit "Access-Control-Allow-Origin")
       = Some (lit "*").
Proof.
  destruct (html_branch_keeps_other_headers Cases.cached_upstream
              Samples.page_request (lit "https://example.com/")
              Cases.cached_html_response eq_refl eq_refl eq_refl eq_refl
              ltac:(cbn; lia))
    as (r & Hr & _ & Hkeep).
  exists r. split; [exact Hr|]. split.
  - rewrite Hkeep; reflexivity.
  - cbn in Hr. injection Hr as <-. reflexivity.
Defined.

(* ================================================================== *)
(** * Further properties of the codec *)
(* ================================================================== *)

Section CodecMore.

Import URI.

Ltac cases :=
  repeat match goal with
  | |- context [?a <? ?b] => destruct (Z.ltb_spec a b)
  | |- context [?a <=? ?b] => destruct (Z.leb_spec a b)
  end.

Ltac arith := try solve [Z.div_mod_to_equations; lia
                        | exfalso; Z.div_mod_to_equations; lia].

Lemma hex_digit_safe d : 0 <= d < 16 -> uri_safe (hex_digit d) = true.
Proof.
  intros Hd. unfold uri_safe, unescaped.
  assert (is_alnum (hex_digit d) = true) as ->; [|reflexivity].
  unfold is_alnum, hex_digit.
  cases; cbn [andb orb]; reflexivity || (exfalso; lia).
Qed.

Lemma escape_octet_safe b :
  0 <= b < 256 -> forallb uri_safe (escape_octet b) = true.
Proof.
  intros Hb. unfold escape_octet. cbn [forallb].
  rewrite !hex_digit_safe by arith. reflexivity.
Qed.

Lemma escaped_safe cp :
  scalar cp -> forallb uri_safe (escape_octets (utf8_octets cp)) = true.
Proof.
  intros [Hr _]. unfold utf8_octets, escape_octets.
  cases; cbn [flat_map]; rewrite ?app_nil_r, ?forallb_app,
    !escape_octet_safe by arith; reflexivity.
Qed.

(** [encodeURIComponent] writes unescaped units and percent signs only. *)
Lemma encode_safe n :
  forall s e, (List.length s <= n)%nat -> well_formed s = true ->
  encodeURIComponent s = Normal e -> forallb uri_safe e = true.
Proof.
  induction n as [|n IH]; intros [|c rest] e Hlen Hwf;
    try (intros [= <-]; reflexivity);
    cbn [List.length] in Hlen; [lia|].
  cbn [encodeURIComponent well_formed] in *.
  destruct (unescaped c) eqn:Hu.
  - pose proof (unescaped_ascii c Hu) as Hc.
    assert (is_lead c = false) as Hl
      by (unfold is_lead; cases; cbn [andb]; lia || reflexivity).
    rewrite Hl in Hwf. apply andb_true_iff in Hwf as [_ Hwf].
    destruct (encodeURIComponent rest) as [r|] eqn:Hr; [|discriminate].
    cbn [JS.bind]. intros [= <-]. cbn [forallb].
    unfold uri_safe at 1. rewrite Hu. cbn [orb andb].
    apply (IH rest r); [lia | exact Hwf | exact Hr].
  - destruct (is_lead c) eqn:Hl.
    + destruct rest as [|lo rest']; [discriminate|].
      apply andb_true_iff in Hwf as [Ht Hwf]. rewrite Ht.
      cbn [List.length] in Hlen.
      destruct (encodeURIComponent rest') as [r|] eqn:Hr; [|discriminate].
      cbn [JS.bind]. intros [= <-]. rewrite forallb_app.
      rewrite escaped_safe by now apply pair_scalar.
      apply (IH rest' r); [lia | exact Hwf | exact Hr].
    + apply andb_true_iff in Hwf as [Hc Hwf].
      apply andb_true_iff in Hc as [Hc Ht].
      apply andb_true_iff in Hc as [Hlo Hhi].
      apply negb_true_iff in Ht. rewrite Ht.
      destruct (encodeURIComponent rest) as [r|] eqn:Hr; [|discriminate].
      cbn [JS.bind]. intros [= <-]. rewrite forallb_app.
      rewrite escaped_safe.
      * apply (IH rest r); [lia | exact Hwf | exact Hr].
      * revert Hl Ht. unfold is_lead, is_trail, scalar.
        apply Z.leb_le in Hlo. apply Z.ltb_lt in Hhi.
        cases; cbn [andb]; intros; lia || discriminate.
Qed.

(** [encodeURIComponent] throws on a string with an unpaired surrogate. *)
Lemma encode_ill_formed n :
  forall s, (List.length s <= n)%nat -> code_units s = true ->
  well_formed s = false -> encodeURIComponent s = Throw malformed.
Proof.
  induction n as [|n IH]; intros [|c rest] Hlen Hcu Hwf;
    try discriminate; cbn [List.length] in Hlen; [lia|].
  cbn [encodeURIComponent well_formed code_units forallb] in *.
  apply andb_true_iff in Hcu as [Hc Hcu]. fold (code_units rest) in Hcu.
  destruct (unescaped c) eqn:Hu.
  - pose proof (unescaped_ascii c Hu) as Ha.
    assert (is_lead c = false) as Hl
      by (unfold is_lead; cases; cbn [andb]; lia || reflexivity).
    assert (is_trail c = false) as Ht
      by (unfold is_trail; cases; cbn [andb]; lia || reflexivity).
    rewrite Hl, Hc, Ht in Hwf. cbn [negb andb] in Hwf.
    now rewrite (IH rest ltac:(lia) Hcu Hwf).
  - destruct (is_lead c) eqn:Hl.
    + destruct rest as [|lo rest']; [reflexivity|].
      destruct (is_trail lo) eqn:Ht; [|reflexivity].
      cbn [andb] in Hwf. cbn [List.length] in Hlen.
      cbn [code_units forallb] in Hcu.
      apply andb_true_iff in Hcu as [_ Hcu].
      now rewrite (IH rest' ltac:(lia) Hcu Hwf).
    + destruct (is_trail c) eqn:Ht; [reflexivity|].
      rewrite Hc in Hwf. cbn [negb andb] in Hwf.
      now rewrite (IH rest ltac:(lia) Hcu Hwf).
Qed.

Lemma read_octet_trailing x :
  read_octet (x ++ [37]) = None
  \/ exists b x', read_octet (x ++ [37]) = Some (b, x' ++ [37]).
Proof.
  destruct x as [|p [|h [|l x']]]; cbn [app read_octet].
  - now left.
  - now left.
  - left. destruct (p =? 37); [|reflexivity].
    now destruct (hex_value h).
  - destruct (p =? 37); [|now left].
    destruct (hex_value h), (hex_value l); try (now left).
    right. now do 2 eexists.
Qed.

Lemma read_octets_trailing m :
  forall x,
    read_octets m (x ++ [37]) = None
    \/ exists bs x', read_octets m (x ++ [37]) = Some (bs, x' ++ [37]).
Proof.
  induction m as [|m IH]; intros x; cbn [read_octets].
  - right. now do 2 eexists.
  - destruct (read_octet_trailing x) as [-> | (b & x' & ->)]; [now left|].
    destruct (IH x') as [-> | (bs & x'' & ->)]; [now left|].
    right. now do 2 eexists.
Qed.

(** A string that ends in a percent sign never decodes. *)
Lemma decode_units_trailing fuel :
  forall s, decode_units fuel (s ++ [37]) = Throw malformed.
Proof.
  induction fuel as [|fuel IH]; intros s.
  - destruct s; reflexivity.
  - destruct s as [|c s]; [reflexivity|].
    rewrite <- app_comm_cons. cbn [decode_units].
    destruct (c =? 37) eqn:Hc; cbn [negb].
    + apply Z.eqb_eq in Hc as ->. rewrite app_comm_cons.
      destruct (read_octet_trailing (37 :: s)) as [-> | (b & x' & ->)];
        [reflexivity|].
      destruct (leading_ones b) as [|[|[|[|[|k]]]]]; try reflexivity;
        try (now rewrite IH);
        match goal with
        | |- context [read_octets ?m _] =>
          destruct (read_octets_trailing m x') as [-> | (bs & x'' & ->)];
            [reflexivity|];
            destruct (utf8_code_point (b :: bs)); [now rewrite IH|reflexivity]
        end.
    + now rewrite IH.
Qed.

Lemma decode_units_plain fuel :
  forall s, (List.length s <= fuel)%nat ->
  forallb (fun c => negb (c =? 37)) s = true ->
  decode_units fuel s = Normal s.
Proof.
  induction fuel as [|fuel IH]; intros [|c s] Hlen Hs;
    try reflexivity; cbn [List.length] in Hlen; [lia|].
  cbn [forallb] in Hs. apply andb_true_iff in Hs as [Hc Hs].
  cbn [decode_units]. rewrite Hc, (IH s ltac:(lia) Hs). reflexivity.
Qed.

End CodecMore.

(** X5.  A link that the attribute rewriter wrote comes back to the
    handler as the URL it was.  For a well-formed URL [u] that
    [rewriteUrl] does not skip and that is not [.] or [..], the rewritten
    value is [/proxy/] and one token that is not a dot segment, so the
    URL parser gives the path of the request as it was written; the
    target of that request decodes to [u], and the handler's first effect
    on it is the fetch of [u].  (The tokens of [.] and [..] are dot
    segments, which the parser resolves: those links do not come back.) *)
Theorem proxied_link_round_trip :
  forall (fetch : jsstring -> jsstring -> completion Response)
         (ua : option jsstring) (u : jsstring),
    well_formed u = true -> truthy u = true ->
    startsWith u (lit "data:") = false ->
    startsWith u (lit "javascript:") = false ->
    u <> lit "." -> u <> lit ".." ->
    exists e,
      ElementHandler.rewriteUrl u = Normal (lit "/proxy/" ++ e)
      /\ dot_segment e = false
      /\ target (mkRequest (lit "/proxy/" ++ e) ua) = Normal u
      /\ exists tr out,
           handler fetch (mkRequest (lit "/proxy/" ++ e) ua)
           = (Fetch u (forwarded_agent (mkRequest (lit "/proxy/" ++ e) ua))
                :: tr, out).
Proof.
  intros fetch ua u Hwf Hu Hd Hj Hdot Hdots.
  destruct (decode_encode u Hwf) as (e & He & Hde).
  exists e.
  assert (target (mkRequest (lit "/proxy/" ++ e) ua) = Normal u) as Ht
    by (unfold target; cbn [pathname]; now rewrite proxy_prefix_removed).
  split; [|split; [|split; [exact Ht|]]].
  - unfold ElementHandler.rewriteUrl. now rewrite Hu, Hd, Hj, He.
  - destruct (dot_segment e) eqn:E; [|reflexivity].
    apply existsb_exists in E as (x & Hin & Heq). apply eqb_eq in Heq.
    subst x. exfalso. cbn [dot_segments In] in Hin.
    decompose sum Hin; subst e;
      vm_compute in Hde; injection Hde as Hde;
      first [apply Hdot; now rewrite <- Hde | apply Hdots; now rewrite <- Hde].
  - rewrite handler_default, (handler_with_fetched fetch _ _ u Ht Hu).
    destruct (fetch u _) as [up|err];
      [destruct (declares_html up), (status_ok (status up))|];
      now do 2 eexists.
Qed.

Lemma proxied_link_round_trip_witness :
  exists e,
    ElementHandler.rewriteUrl (lit "https://example.com/")
    = Normal (lit "/proxy/" ++ e)
    /\ dot_segment e = false
    /\ target (mkRequest (lit "/proxy/" ++ e) None)
       = Normal (lit "https://example.com/")
    /\ exists tr out,
         handler Samples.upstream (mkRequest (lit "/proxy/" ++ e) None)
         = (Fetch (lit "https://example.com/")
                  (forwarded_agent (mkRequest (lit "/proxy/" ++ e) None))
              :: tr, out).
Proof.
  apply (proxied_link_round_trip Samples.upstream None
           (lit "https://example.com/"));
    first [reflexivity | discriminate].
Defined.

(** X6.  What [rewriteUrl] puts after [/proxy/] for a well-formed URL is
    made of unescaped characters and percent signs only: it holds no
    slash, question mark, number sign, quotation mark, angle bracket,
    ampersand or space, so the whole target stays in one path segment and
    cannot leave the attribute it is written into. *)
Theorem rewritten_url_is_one_safe_segment :
  forall u : jsstring,
    well_formed u = true -> truthy u = true ->
    startsWith u (lit "data:") = false ->
    startsWith u (lit "javascript:") = false ->
    exists e,
      ElementHandler.rewriteUrl u = Normal (lit "/proxy/" ++ e)
      /\ forallb uri_safe e = true
      /\ forall c, In c e -> ~ In c (lit "/?#<>& " ++ dq).
Proof.
  intros u Hwf Hu Hd Hj.
  destruct (decode_encode u Hwf) as (e & He & _).
  exists e. split; [|split].
  - unfold ElementHandler.rewriteUrl. now rewrite Hu, Hd, Hj, He.
  - exact (encode_safe _ u e (le_n _) Hwf He).
  - intros c Hin Hbad.
    pose proof (encode_safe _ u e (le_n _) Hwf He) as Hsafe.
    rewrite forallb_forall in Hsafe. specialize (Hsafe c Hin).
    cbn in Hbad. decompose sum Hbad; subst c; discriminate.
Qed.

Lemma rewritten_url_is_one_safe_segment_witness :
  exists e,
    ElementHandler.rewriteUrl (lit "https://example.com/a b?q=<x>&y#z")
    = Normal (lit "/proxy/" ++ e)
    /\ forallb uri_safe e = true
    /\ forall c, In c e -> ~ In c (lit "/?#<>& " ++ dq).
Proof.
  apply (rewritten_url_is_one_safe_segment
           (lit "https://example.com/a b?q=<x>&y#z")); reflexivity.
Defined.

(** X7.  [rewriteUrl] throws exactly on the values it does not skip that
    hold an unpaired surrogate: a string of code units that is neither
    empty nor a [data:] or [javascript:] URL is rewritten when it is well
    formed, and makes [rewriteUrl] throw a URIError when it is not. *)
Theorem rewriteUrl_throws_on_unpaired_surrogate :
  forall u : jsstring,
    code_units u = true -> truthy u = true ->
    startsWith u (lit "data:") = false ->
    startsWith u (lit "javascript:") = false ->
    (well_formed u = true ->
     exists p, ElementHandler.rewriteUrl u = Normal p)
    /\ (well_formed u = false ->
        ElementHandler.rewriteUrl u = Throw URI.malformed).
Proof.
  intros u Hcu Hu Hd Hj. unfold ElementHandler.rewriteUrl.
  rewrite Hu, Hd, Hj. cbn [negb orb]. split; intros Hwf.
  - destruct (decode_encode u Hwf) as (e & -> & _). now eexists.
  - now rewrite (encode_ill_formed _ u (le_n _) Hcu Hwf).
Qed.

Lemma rewriteUrl_throws_on_unpaired_surrogate_witness :
  ElementHandler.rewriteUrl (lit "https://example.com/" ++ [55357])
  = Throw URI.malformed
  /\ exists p,
       ElementHandler.rewriteUrl (lit "https://example.com/" ++ [55357; 56347])
       = Normal p.
Proof.
  split.
  - apply (rewriteUrl_throws_on_unpaired_surrogate
             (lit "https://example.com/" ++ [55357])); reflexivity.
  - apply (rewriteUrl_throws_on_unpaired_surrogate
             (lit "https://example.com/" ++ [55357; 56347])); reflexivity.
Defined.

(** X8.  Every path that ends in a percent sign is undecodable: the
    handler rejects a request for [/proxy/] followed by any text and a
    final [%] with a URIError and without any effect, and the client's
    [decode] gives such a token back as it is. *)
Theorem trailing_percent_is_undecodable :
  forall (fetch : jsstring -> jsstring -> completion Response)
         (ua : option jsstring) (s : jsstring),
    handler fetch (mkRequest (lit "/proxy/" ++ s ++ lit "%") ua)
    = ([], Throw URI.malformed)
    /\ URLUtils.decode (s ++ lit "%") = s ++ lit "%".
Proof.
  intros fetch ua s.
  assert (URI.decodeURIComponent (s ++ lit "%") = Throw URI.malformed) as Hd
    by apply decode_units_trailing.
  split.
  - apply handler_undecodable. unfold target. cbn [pathname].
    now rewrite proxy_prefix_removed.
  - unfold URLUtils.decode. now rewrite Hd.
Qed.

(** X9.  The client's [decode] leaves a string without a percent sign
    as it is. *)
Theorem decode_keeps_plain_strings :
  forall s : jsstring,
    forallb (fun c => negb (c =? 37)) s = true -> URLUtils.decode s = s.
Proof.
  intros s Hs. unfold URLUtils.decode, URI.decodeURIComponent.
  now rewrite (decode_units_plain _ s (le_n _) Hs).
Qed.

Lemma decode_keeps_plain_strings_witness :
  URLUtils.decode (lit "https://example.com/x") = lit "https://example.com/x".
Proof.
  apply (decode_keeps_plain_strings (lit "https://example.com/x")).
  reflexivity.
Defined.

(** X10.  The client's [encode] fails open, and then the proxy path
    carries the URL as it was written: when the URL parser rejects a URL
    that [rewrite] does not skip, [encode] gives the URL back and [rewrite]
    gives [/proxy/] followed by the unencoded URL. *)
Theorem client_encode_fails_open :
  forall (href : jsstring -> completion jsstring) (url : jsstring) (e : Error),
    href url = Throw e ->
    URLUtils.encode href url = url
    /\ (truthy url = true ->
        startsWith url (lit "data:") = false ->
        startsWith url (lit "javascript:") = false ->
        startsWith url (lit "blob:") = false ->
        URLUtils.rewrite href url = lit "/proxy/" ++ url).
Proof.
  intros href url e He.
  assert (URLUtils.encode href url = url) as Henc
    by (unfold URLUtils.encode; now rewrite He).
  split; [exact Henc|]. intros Hu Hd Hj Hb.
  unfold URLUtils.rewrite. now rewrite Hu, Hd, Hj, Hb, Henc.
Qed.

Lemma client_encode_fails_open_witness :
  URLUtils.encode Cases.href_fails (lit "http://[") = lit "http://["
  /\ URLUtils.rewrite Cases.href_fails (lit "http://[")
     = lit "/proxy/http://[".
Proof.
  destruct (client_encode_fails_open Cases.href_fails (lit "http://[")
              (mkError TypeError (lit "Invalid URL")) eq_refl) as [Henc Hre].
  split; [exact Henc|]. apply Hre; reflexivity.
Defined.

(** X11.  The two rewriters agree where the parser changes nothing: for
    a well-formed URL that the parser returns as it is and that neither
    rewriter skips, the client's [rewrite] gives the value the server's
    [rewriteUrl] gives. *)
Theorem client_and_server_rewrite_agree :
  forall (href : jsstring -> completion jsstring) (u : jsstring),
    href u = Normal u -> well_formed u = true ->
    truthy u = true ->
    startsWith u (lit "data:") = false ->
    startsWith u (lit "javascript:") = false ->
    startsWith u (lit "blob:") = false ->
    ElementHandler.rewriteUrl u = Normal (URLUtils.rewrite href u).
Proof.
  intros href u Hn Hwf Hu Hd Hj Hb.
  destruct (decode_encode u Hwf) as (e & He & _).
  unfold ElementHandler.rewriteUrl, URLUtils.rewrite, URLUtils.encode.
  rewrite Hu, Hd, Hj, Hb, Hn. cbn [negb orb JS.bind]. now rewrite He.
Qed.

Lemma client_and_server_rewrite_agree_witness :
  ElementHandler.rewriteUrl (lit "https://example.com/x")
  = Normal (URLUtils.rewrite Cases.href_same (lit "https://example.com/x")).
Proof.
  apply (client_and_server_rewrite_agree Cases.href_same
           (lit "https://example.com/x")); reflexivity.
Defined.

(* ================================================================== *)
(** * Further properties of the rewriter *)
(* ================================================================== *)

Section RewriterMore.

Variable config : Config.

Lemma dispatch_names el el' :
  dispatch (rewriter config) el = Normal el' ->
  List.map fst (attributes el') = List.map fst (attributes el).
Proof.
  rewrite dispatch_rewriter. cbv zeta.
  destruct (selects rewritten_tags (tagName el)).
  - intros H. now apply (forEach_spec _ attrs_NoDup) in H as [Hn _].
  - now intros [= <-].
Qed.

Lemma blank_names attrs attrs' :
  List.map fst attrs' = List.map fst attrs ->
  List.map blank attrs' = List.map blank attrs.
Proof.
  intros H.
  assert (forall l, List.map blank l
                    = List.map (fun k => (k, @nil Z)) (List.map fst l)) as Hb
    by (intros l; rewrite map_map; reflexivity).
  now rewrite !Hb, H.
Qed.

Lemma skeleton_elem tag attrs children :
  skeleton (Elem tag attrs children)
  = [Elem tag (List.map blank attrs) (skeletons children)].
Proof.
  reflexivity.
Qed.

Lemma skeletons_app l1 l2 :
  skeletons (l1 ++ l2) = skeletons l1 ++ skeletons l2.
Proof.
  induction l1 as [|k l1 IH]; cbn [app skeletons]; [reflexivity|].
  now rewrite IH, app_assoc.
Qed.

Lemma skeletons_raw hs : skeletons (List.map Raw hs) = [].
Proof. induction hs as [|h hs IH]; [reflexivity | exact IH]. Qed.

Let kept (n : node) : Prop :=
  forall out, transform_node (rewriter config) n = Normal out ->
    skeleton out = skeleton n.

Lemma kept_nodes l :
  Forall kept l ->
  forall out, transform_nodes (rewriter config) l = Normal out ->
    skeletons out = skeletons l.
Proof.
  induction 1 as [|k l Hk _ IH]; cbn [transform_nodes]; intros out.
  - now intros [= <-].
  - destruct (transform_node (rewriter config) k) as [k'|] eqn:Ek;
      [|discriminate]. cbn [JS.bind].
    destruct (transform_nodes (rewriter config) l) as [l'|] eqn:El;
      [|discriminate]. cbn [JS.bind]. intros [= <-].
    cbn [skeletons]. now rewrite (Hk k' Ek), (IH l' eq_refl).
Qed.

Lemma kept_node n : kept n.
Proof.
  induction n as [s|r|tag attrs children IH] using node_ind;
    unfold kept; intros out; try (now intros [= <-]).
  rewrite transform_node_elem.
  destruct (dispatch (rewriter config) (mkElement tag attrs []))
    as [el|] eqn:Ed; [|discriminate]. cbn [JS.bind].
  destruct (transform_nodes (rewriter config) children) as [l'|] eqn:El;
    [|discriminate]. cbn [JS.bind]. intros [= <-].
  rewrite !skeleton_elem, skeletons_app, skeletons_raw, app_nil_r.
  rewrite (kept_nodes children IH l' El).
  apply dispatch_names in Ed. cbn [attributes] in Ed.
  now rewrite (blank_names _ _ Ed).
Qed.

Lemma unmatched_elem tag attrs children :
  unmatched (Elem tag attrs children)
  = negb (selects matched_tags tag) && all_unmatched children.
Proof. reflexivity. Qed.

Lemma dispatch_unmatched tag attrs :
  selects matched_tags tag = false ->
  dispatch (rewriter config) (mkElement tag attrs [])
  = Normal (mkElement tag attrs []).
Proof.
  intros H. rewrite dispatch_rewriter. cbv zeta.
  cbn [tagName attributes appended app].
  unfold matched_tags in H. cbn [selects existsb] in H.
  apply orb_false_iff in H as [Hh H]. apply orb_false_iff in H as [Hb H].
  fold (selects rewritten_tags tag) in H.
  unfold injected. now rewrite H, Hh, Hb.
Qed.

Let same (n : node) : Prop :=
  unmatched n = true -> transform_node (rewriter config) n = Normal n.

Lemma same_nodes l :
  Forall same l -> all_unmatched l = true ->
  transform_nodes (rewriter config) l = Normal l.
Proof.
  induction 1 as [|k l Hk _ IH]; cbn [transform_nodes all_unmatched];
    [reflexivity|].
  intros H. apply andb_true_iff in H as [Hu Hl].
  now rewrite (Hk Hu), (IH Hl).
Qed.

Lemma same_node n : same n.
Proof.
  induction n as [s|r|tag attrs children IH] using node_ind;
    unfold same; try reflexivity.
  rewrite unmatched_elem, transform_node_elem. intros H.
  apply andb_true_iff in H as [Ht Hc]. apply negb_true_iff in Ht.
  rewrite (dispatch_unmatched tag attrs Ht). cbn [JS.bind].
  rewrite (same_nodes children IH Hc). cbn [JS.bind attributes appended].
  now rewrite app_nil_r.
Qed.

End RewriterMore.

(** X12.  The rewriter changes nothing but attribute values and inserted
    markup: with the inserted raw markup taken out and the attribute
    values blanked, the output is the input: every element, attribute
    name and text is kept, in its order and at its depth. *)
Theorem transform_keeps_the_skeleton :
  forall (config : Config) (doc out : list node),
    transform_nodes (rewriter config) doc = Normal out ->
    skeletons out = skeletons doc.
Proof.
  intros config doc out. apply kept_nodes, Forall_forall.
  intros n _. apply kept_node.
Qed.

Lemma transform_keeps_the_skeleton_witness :
  exists out,
    transform_nodes (rewriter Samples.default_config) Samples.page = Normal out
    /\ skeletons out = skeletons Samples.page.
Proof.
  eexists. split; [reflexivity|].
  apply (transform_keeps_the_skeleton Samples.default_config Samples.page).
  reflexivity.
Defined.

(** X13.  A document without [head], [body], [a], [link], [script],
    [img], [iframe] and [form] elements passes the rewriter unchanged,
    whatever its attributes hold: an [href], [src], [action] or [data]
    attribute on any other element is not rewritten. *)
Theorem transform_is_identity_on_unmatched :
  forall (config : Config) (doc : list node),
    all_unmatched doc = true ->
    transform_nodes (rewriter config) doc = Normal doc.
Proof.
  intros config doc. apply same_nodes, Forall_forall.
  intros n _. apply same_node.
Qed.

Lemma transform_is_identity_on_unmatched_witness :
  transform_nodes (rewriter Samples.default_config) Cases.plain_page
  = Normal Cases.plain_page.
Proof.
  apply (transform_is_identity_on_unmatched Samples.default_config
           Cases.plain_page). reflexivity.
Defined.

(** X14.  The injected markup goes after the last child: the [head]
    element comes out with its attributes, its rewritten children in
    their order and then the bootstrap script, followed by the debug-tool
    script when the debug flag is on; the [body] element likewise with
    the debug trigger last. *)
Theorem injection_is_appended_last :
  forall (config : Config) (attrs : list (jsstring * jsstring))
         (children : list node) (out : node),
    (transform_node (rewriter config) (Elem (lit "head") attrs children)
     = Normal out ->
     exists children',
       transform_nodes (rewriter config) children = Normal children'
       /\ out = Elem (lit "head") attrs
                     (children' ++ Raw HeadHandler.base_script
                        :: (if debug_enabled config
                            then [Raw HeadHandler.eruda_script] else [])))
    /\ (transform_node (rewriter config) (Elem (lit "body") attrs children)
        = Normal out ->
        exists children',
          transform_nodes (rewriter config) children = Normal children'
          /\ out = Elem (lit "body") attrs
                        (children' ++ (if debug_enabled config
                                       then [Raw BodyHandler.trigger]
                                       else []))).
Proof.
  intros config attrs children out.
  split; rewrite transform_node_elem, dispatch_rewriter; cbv zeta;
    cbn [tagName attributes appended app JS.bind selects existsb];
    change (eqb (lit "head") (lit "head")) with true;
    change (eqb (lit "body") (lit "body")) with true;
    unfold injected;
    destruct (transform_nodes (rewriter config) children) as [l'|];
    try discriminate; cbn [JS.bind]; intros [= <-]; exists l';
    (split; [reflexivity|]);
    destruct (debug_enabled config); reflexivity.
Qed.

Lemma injection_is_appended_last_witness :
  exists children',
    transform_nodes (rewriter Samples.quiet_config)
                    [Elem (lit "title") [] [Text (lit "t")]]
    = Normal children'
    /\ Elem (lit "head") [(lit "lang", lit "en")]
            [Elem (lit "title") [] [Text (lit "t")];
             Raw HeadHandler.base_script]
       = Elem (lit "head") [(lit "lang", lit "en")]
              (children' ++ [Raw HeadHandler.base_script]).
Proof.
  destruct (injection_is_appended_last Samples.quiet_config
              [(lit "lang", lit "en")]
              [Elem (lit "title") [] [Text (lit "t")]]
              (Elem (lit "head") [(lit "lang", lit "en")]
                    [Elem (lit "title") [] [Text (lit "t")];
                     Raw HeadHandler.base_script])) as [Hhead _].
  apply Hhead. reflexivity.
Defined.

(* ================================================================== *)
(** * The theme functions of the client *)
(* ================================================================== *)

Section Theme.

Implicit Types l : list (jsstring * jsstring).

Lemma lookup_update_same l k v : lookup (update l k v) k = Some v.
Proof.
  induction l as [|[k' v'] l IH]; cbn [update lookup].
  - now rewrite eqb_refl.
  - destruct (eqb k' k) eqn:E; cbn [lookup]; now rewrite E.
Qed.

Lemma lookup_update_other l k v k' :
  k' <> k -> lookup (update l k v) k' = lookup l k'.
Proof.
  intros Hne. induction l as [|[a b] l IH]; cbn [update lookup].
  - assert (eqb k k' = false) as ->; [|reflexivity].
    apply eqb_neq. congruence.
  - destruct (eqb a k) eqn:E; cbn [lookup]; [|now rewrite IH].
    apply eqb_eq in E as ->.
    assert (eqb k k' = false) as ->; [|reflexivity].
    apply eqb_neq. congruence.
Qed.

Lemma update_same l k v : lookup l k = Some v -> update l k v = l.
Proof.
  induction l as [|[a b] l IH]; cbn [update lookup]; [discriminate|].
  destruct (eqb a k); [now intros [= ->] | intros H; now rewrite IH].
Qed.

Lemma valid_theme theme :
  existsb (eqb theme) Comet.validThemes = true <-> In theme Comet.validThemes.
Proof.
  rewrite existsb_exists. split.
  - intros (t & Hin & Heq). apply eqb_eq in Heq as ->. exact Hin.
  - intros Hin. exists theme. split; [exact Hin | apply eqb_refl].
Qed.

Lemma valid_theme_truthy theme :
  In theme Comet.validThemes -> truthy theme = true.
Proof. cbn. intros H. decompose sum H; subst; reflexivity. Qed.

Lemma setTheme_valid p theme :
  In theme Comet.validThemes ->
  Comet.setTheme p theme
  = Comet.mkPage (Some theme)
      (update (Comet.localStorage p) (lit "comet-theme") theme).
Proof.
  intros H. apply valid_theme in H. unfold Comet.setTheme. now rewrite H.
Qed.

Lemma setTheme_invalid p theme :
  ~ In theme Comet.validThemes -> Comet.setTheme p theme = p.
Proof.
  intros H. unfold Comet.setTheme.
  destruct (existsb (eqb theme) Comet.validThemes) eqn:E; [|reflexivity].
  apply valid_theme in E. contradiction.
Qed.

Lemma valid_theme_dec theme :
  In theme Comet.validThemes \/ ~ In theme Comet.validThemes.
Proof.
  destruct (existsb (eqb theme) Comet.validThemes) eqn:E.
  - left. now apply valid_theme.
  - right. intros H. apply valid_theme in H. congruence.
Qed.

Lemma setTheme_sound p theme :
  theme_sound p -> theme_sound (Comet.setTheme p theme).
Proof.
  intros Hs. destruct (valid_theme_dec theme) as [Hv|Hv].
  - rewrite (setTheme_valid p theme Hv). split.
    + unfold Comet.getItem. cbn. now rewrite lookup_update_same.
    + cbn. now intros t [= <-].
  - now rewrite (setTheme_invalid p theme Hv).
Qed.

Lemma init_sound p : theme_sound p -> Comet.init p = p.
Proof.
  intros [Hd Hv]. unfold Comet.init.
  destruct (Comet.getItem p (lit "comet-theme")) as [t|] eqn:Hg;
    [|reflexivity].
  rewrite (valid_theme_truthy t (Hv t Hd)), (setTheme_valid p t (Hv t Hd)).
  unfold Comet.getItem in Hg. rewrite (update_same _ _ _ Hg).
  destruct p as [d ls]. cbn in *. now rewrite Hd.
Qed.

End Theme.

(** X15.  [setTheme] with one of [light], [dark] and [auto] sets the
    [data-comet-theme] attribute and the stored [comet-theme] to the
    theme and leaves every other stored key as it was; with any other
    value it changes nothing. *)
Theorem setTheme_sets_attribute_and_storage :
  forall (p : Comet.Page) (theme : jsstring),
    (In theme Comet.validThemes ->
     Comet.data_comet_theme (Comet.setTheme p theme) = Some theme
     /\ Comet.getItem (Comet.setTheme p theme) (lit "comet-theme")
        = Some theme
     /\ forall key, key <> lit "comet-theme" ->
          Comet.getItem (Comet.setTheme p theme) key = Comet.getItem p key)
    /\ (~ In theme Comet.validThemes -> Comet.setTheme p theme = p).
Proof.
  intros p theme. split; [|apply setTheme_invalid].
  intros Hv. rewrite (setTheme_valid p theme Hv). unfold Comet.getItem. cbn.
  split; [reflexivity|]. split; [apply lookup_update_same|].
  intros key Hk. now apply lookup_update_other.
Qed.

Lemma setTheme_sets_attribute_and_storage_witness :
  (Comet.data_comet_theme (Comet.setTheme Cases.stored_page (lit "light"))
   = Some (lit "light")
   /\ Comet.getItem (Comet.setTheme Cases.stored_page (lit "light"))
                    (lit "lang") = Some (lit "en"))
  /\ Comet.setTheme Cases.stored_page (lit "Dark") = Cases.stored_page.
Proof.
  destruct (setTheme_sets_attribute_and_storage Cases.stored_page (lit "light"))
    as [Hvalid _].
  destruct (setTheme_sets_attribute_and_storage Cases.stored_page (lit "Dark"))
    as [_ Hinvalid].
  split.
  - destruct (Hvalid ltac:(cbn; tauto)) as (Ha & _ & Hk). split; [exact Ha|].
    rewrite Hk; [reflexivity | discriminate].
  - apply Hinvalid. cbn. intros H. decompose sum H; discriminate.
Defined.

(** X16.  The theme functions keep the page sound: from a page on which
    the attribute and the stored theme agree and are a valid theme or
    absent, any sequence of [setTheme] calls gives such a page again, and
    on such a page [init] changes nothing. *)
Theorem theme_stays_sound :
  forall (themes : list jsstring) (p : Comet.Page),
    theme_sound p ->
    theme_sound (fold_left Comet.setTheme themes p)
    /\ Comet.init (fold_left Comet.setTheme themes p)
       = fold_left Comet.setTheme themes p.
Proof.
  intros themes p Hs.
  assert (theme_sound (fold_left Comet.setTheme themes p)) as H.
  { revert p Hs. induction themes as [|t themes IH]; intros p Hs;
      [exact Hs|]. cbn [fold_left]. now apply IH, setTheme_sound. }
  split; [exact H | now apply init_sound].
Qed.

Lemma theme_stays_sound_witness :
  theme_sound (fold_left Comet.setTheme [lit "dark"; lit "blue"; lit "auto"]
                         Cases.fresh_page)
  /\ Comet.data_comet_theme
       (fold_left Comet.setTheme [lit "dark"; lit "blue"; lit "auto"]
                  Cases.fresh_page) = Some (lit "auto").
Proof.
  destruct (theme_stays_sound [lit "dark"; lit "blue"; lit "auto"]
                              Cases.fresh_page) as [Hsound _].
  - split; [reflexivity | discriminate].
  - split; [exact Hsound | reflexivity].
Defined.

(** X17.  A theme survives the reload of the page: on the reloaded page,
    which has the storage that [setTheme] left and no theme attribute,
    [init] restores the page that [setTheme] made.  A stored value that is
    not a valid theme is not applied. *)
Theorem theme_survives_reload :
  forall (p : Comet.Page) (theme : jsstring),
    (In theme Comet.validThemes ->
     Comet.init
       (Comet.mkPage None (Comet.localStorage (Comet.setTheme p theme)))
     = Comet.setTheme p theme)
    /\ (Comet.getItem p (lit "comet-theme") = Some theme ->
        ~ In theme Comet.validThemes ->
        Comet.init p = p).
Proof.
  intros p theme. split.
  - intros Hv. rewrite (setTheme_valid p theme Hv). cbn [Comet.localStorage].
    unfold Comet.init, Comet.getItem. cbn [Comet.localStorage].
    rewrite lookup_update_same, (valid_theme_truthy theme Hv).
    rewrite (setTheme_valid _ theme Hv). cbn [Comet.localStorage].
    now rewrite (update_same _ _ _ (lookup_update_same _ _ _)).
  - intros Hg Hv. unfold Comet.init. rewrite Hg.
    destruct (truthy theme); [now apply setTheme_invalid | reflexivity].
Qed.

Lemma theme_survives_reload_witness :
  Comet.init
    (Comet.mkPage None
       (Comet.localStorage (Comet.setTheme Cases.fresh_page (lit "dark"))))
  = Comet.setTheme Cases.fresh_page (lit "dark").
Proof.
  apply (theme_survives_reload Cases.fresh_page (lit "dark")).
  cbn. tauto.
Defined.

(** X18.  [checkStatus] reports [registered: false] only in a browser
    that has service workers and whose page no worker controls: in a
    browser without service workers it reports [serviceWorker: false]
    together with [registered: true]. *)
Theorem checkStatus_registered :
  forall b : Comet.Browser,
    (Comet.registered (Comet.checkStatus b) = false
     <-> Comet.navigator_serviceWorker b = Some None)
    /\ (Comet.serviceWorker (Comet.checkStatus b) = false ->
        Comet.registered (Comet.checkStatus b) = true)
    /\ Comet.version (Comet.checkStatus b) = lit "1.0.0".
Proof.
  intros [[[c|]|] e]; cbn; repeat split; intros; congruence.
Qed.

(* ================================================================== *)
(** * The cache store: the client's [clearCache] and the worker *)
(* ================================================================== *)

Section Caches.

Context {C : Type}.
Implicit Types s : CacheStorage.t C.

Lemma filter_twice (f g : jsstring * C -> bool) s :
  filter f (filter g s) = filter (fun kv => g kv && f kv) s.
Proof.
  induction s as [|kv s IH]; [reflexivity|]. cbn [filter].
  destruct (g kv); cbn [filter andb]; [|exact IH].
  destruct (f kv); now rewrite IH.
Qed.

(** Deleting the caches of a list of names leaves the caches of the other
    names, in their order and with what they hold. *)
Lemma delete_all_filter names :
  forall s,
    CacheStorage.delete_all s names
    = filter (fun kv => negb (existsb (eqb (fst kv)) names)) s.
Proof.
  unfold CacheStorage.delete_all.
  induction names as [|n names IH]; intros s; cbn [fold_left existsb].
  - cbn [negb]. induction s as [|kv s IHs]; [reflexivity|]. cbn [filter].
    now rewrite <- IHs.
  - rewrite IH. unfold CacheStorage.delete. rewrite filter_twice.
    apply filter_ext. intros kv. now rewrite negb_orb.
Qed.

Lemma name_in_keys s kv :
  In kv s -> existsb (eqb (fst kv)) (CacheStorage.keys s) = true.
Proof.
  intros Hin. apply existsb_exists. exists (fst kv).
  split; [now apply in_map | apply eqb_refl].
Qed.

Lemma delete_every_key s :
  CacheStorage.delete_all s (CacheStorage.keys s) = [].
Proof.
  rewrite delete_all_filter.
  assert (forall l, (forall kv, In kv l -> In kv s) ->
            filter (fun kv => negb (existsb (eqb (fst kv))
                                            (CacheStorage.keys s))) l = [])
    as H.
  { induction l as [|kv l IH]; intros Hl; [reflexivity|]. cbn [filter].
    rewrite (name_in_keys s kv (Hl kv (or_introl eq_refl))). cbn [negb].
    apply IH. intros kv' Hin. apply Hl. now right. }
  now apply H.
Qed.

Lemma activate_filter s :
  ServiceWorker.activate s
  = filter (fun kv => eqb (fst kv) ServiceWorker.CACHE_NAME) s.
Proof.
  unfold ServiceWorker.activate. rewrite delete_all_filter.
  apply filter_ext_in. intros kv Hin.
  destruct (eqb (fst kv) ServiceWorker.CACHE_NAME) eqn:E.
  - apply negb_true_iff.
    destruct (existsb _ _) eqn:Ex; [|reflexivity].
    apply existsb_exists in Ex as (n & Hn & Heq).
    apply filter_In in Hn as [_ Hn]. apply eqb_eq in Heq, E.
    rewrite <- Heq, E, eqb_refl in Hn. discriminate.
  - apply negb_false_iff, existsb_exists. exists (fst kv).
    split; [|apply eqb_refl]. apply filter_In.
    split; [now apply in_map | now rewrite E].
Qed.

End Caches.

(** X19.  [clearCache] deletes every cache: in a window with the Cache
    API the store is empty afterwards, whatever it held; without the API
    nothing is done. *)
Theorem clearCache_empties_the_store :
  forall (C : Type) (s : CacheStorage.t C),
    Comet.clearCache (Some s) = Some []
    /\ Comet.clearCache (@None (CacheStorage.t C)) = None.
Proof.
  intros C s. split; [|reflexivity].
  unfold Comet.clearCache. now rewrite delete_every_key.
Qed.

(** X20.  The [activate] listener of the worker leaves exactly the caches
    named [comet-cache-v1], in their order and with what they hold, and
    deletes every other cache. *)
Theorem activate_keeps_the_current_cache :
  forall (C : Type) (s : CacheStorage.t C),
    ServiceWorker.activate s
    = filter (fun kv => eqb (fst kv) (lit "comet-cache-v1")) s
    /\ forall name c,
         In (name, c) (ServiceWorker.activate s)
         <-> In (name, c) s /\ name = lit "comet-cache-v1".
Proof.
  intros C s. split; [apply activate_filter|].
  intros name c. rewrite activate_filter, filter_In. cbn [fst].
  unfold ServiceWorker.CACHE_NAME. now rewrite eqb_eq.
Qed.

(* ================================================================== *)
(** * The [fetch] and [message] listeners of the worker *)
(* ================================================================== *)

Section WorkerFacts.

Import ServiceWorker.

Variable fetch : ServiceWorker.Request -> completion ServiceWorker.Response.
Variable self_origin : jsstring.
Variable caches_match :
  ServiceWorker.Request -> option ServiceWorker.Response.

(** The trace and the completion of [fetchAndCache]. *)
Lemma fetchAndCache_spec request :
  snd (fetchAndCache fetch request) = fetch request
  /\ (fst (fetchAndCache fetch request) = [Fetch request]
      \/ (exists e, fetch request = Throw e
                    /\ fst (fetchAndCache fetch request)
                       = [Fetch request;
                          ConsoleError (lit "CEP SW: Fetch failed") e])
      \/ (exists response,
            fetch request = Normal response
            /\ status response = 200 /\ type response <> error
            /\ fst (fetchAndCache fetch request)
               = [Fetch request; Put CACHE_NAME request response])).
Proof.
  unfold fetchAndCache. destruct (fetch request) as [response|e].
  - destruct (status response =? 200) eqn:Hs;
      destruct (is_error (type response)) eqn:Ht; cbn [negb orb fst snd];
      (split; [reflexivity|]); try (now left).
    right. right. exists response. apply Z.eqb_eq in Hs.
    repeat split; [exact Hs|]. intros E. rewrite E in Ht. discriminate.
  - split; [reflexivity|]. right. left. now exists e.
Qed.

End WorkerFacts.

(** X21.  The worker leaves a request alone exactly when its path starts
    with [/proxy/], and then it does nothing at all; every other request
    is answered by the worker. *)
Theorem worker_intercepts_all_but_proxy_paths :
  forall (fetch : ServiceWorker.Request -> completion ServiceWorker.Response)
         (self_origin : jsstring)
         (caches_match : ServiceWorker.Request -> option ServiceWorker.Response)
         (request : ServiceWorker.Request),
    (snd (ServiceWorker.onfetch fetch self_origin caches_match request)
     = ServiceWorker.NotIntercepted
     <-> startsWith (ServiceWorker.pathname request) (lit "/proxy/") = true)
    /\ (startsWith (ServiceWorker.pathname request) (lit "/proxy/") = true ->
        fst (ServiceWorker.onfetch fetch self_origin caches_match request)
        = []).
Proof.
  intros fetch self_origin caches_match request.
  unfold ServiceWorker.onfetch, ServiceWorker.PROXY_ENDPOINT.
  destruct (startsWith (ServiceWorker.pathname request) (lit "/proxy/")).
  - repeat split.
  - destruct (eqb (ServiceWorker.origin request) self_origin),
      (caches_match request); cbn [fst snd]; repeat split; discriminate.
Qed.

Lemma worker_intercepts_all_but_proxy_paths_witness :
  ServiceWorker.onfetch Cases.network (lit "https://app.example")
                        Cases.warm_cache Cases.proxy_request
  = ([], ServiceWorker.NotIntercepted).
Proof.
  destruct (worker_intercepts_all_but_proxy_paths
              Cases.network (lit "https://app.example") Cases.warm_cache
              Cases.proxy_request) as [[_ Hnot] Hquiet].
  specialize (Hnot eq_refl). specialize (Hquiet eq_refl).
  destruct (ServiceWorker.onfetch _ _ _ _) as [tr o].
  cbn [fst snd] in *. now subst.
Defined.

(** X22.  The worker writes to the cache only what it just fetched for a
    request of another origin: every [cache.put] of the [fetch] listener
    goes to [comet-cache-v1], is for the request of the event and stores
    the response the network gave for it, which has status 200 and is not
    an error response; requests of the worker's own origin and proxy
    requests never cause a write. *)
Theorem worker_caches_only_fresh_200_responses :
  forall (fetch : ServiceWorker.Request -> completion ServiceWorker.Response)
         (self_origin : jsstring)
         (caches_match : ServiceWorker.Request -> option ServiceWorker.Response)
         (request r : ServiceWorker.Request) (n : jsstring)
         (response : ServiceWorker.Response),
    In (ServiceWorker.Put n r response)
       (fst (ServiceWorker.onfetch fetch self_origin caches_match request)) ->
    n = lit "comet-cache-v1" /\ r = request
    /\ fetch request = Normal response
    /\ ServiceWorker.status response = 200
    /\ ServiceWorker.type response <> ServiceWorker.error
    /\ ServiceWorker.origin request <> self_origin
    /\ startsWith (ServiceWorker.pathname request) (lit "/proxy/") = false.
Proof.
  intros fetch self_origin caches_match request r n response.
  unfold ServiceWorker.onfetch, ServiceWorker.PROXY_ENDPOINT.
  destruct (startsWith (ServiceWorker.pathname request) (lit "/proxy/"));
    [intros []|].
  destruct (eqb (ServiceWorker.origin request) self_origin) eqn:Ho.
  - destruct (caches_match request); cbn [fst In];
      intros H; decompose sum H; discriminate.
  - apply eqb_neq in Ho.
    assert (In (ServiceWorker.Put n r response)
               (fst (ServiceWorker.fetchAndCache fetch request)) ->
            n = lit "comet-cache-v1" /\ r = request
            /\ fetch request = Normal response
            /\ ServiceWorker.status response = 200
            /\ ServiceWorker.type response <> ServiceWorker.error) as Hput.
    { destruct (fetchAndCache_spec fetch request)
        as (_ & [-> | [(e & _ & ->) | (resp & Hf & Hs & Ht & ->)]]);
        cbn [In]; intros H; decompose sum H; try discriminate.
      match goal with H : ServiceWorker.Put _ _ _ = _ |- _ =>
        injection H as <- <- <- end.
      now repeat split. }
    destruct (caches_match request); cbn [fst]; intros H;
      destruct (Hput H) as (? & ? & ? & ? & ?); now repeat split.
Qed.

Lemma worker_caches_only_fresh_200_responses_witness :
  fst (ServiceWorker.onfetch Cases.network (lit "https://app.example")
                             Cases.empty_cache Cases.cdn_request)
  = [ServiceWorker.Fetch Cases.cdn_request;
     ServiceWorker.Put (lit "comet-cache-v1") Cases.cdn_request
                       Cases.ok_response]
  /\ ServiceWorker.status Cases.ok_response = 200.
Proof.
  split; [reflexivity|].
  apply (worker_caches_only_fresh_200_responses
           Cases.network (lit "https://app.example") Cases.empty_cache
           Cases.cdn_request Cases.cdn_request (lit "comet-cache-v1")
           Cases.ok_response).
  right. left. reflexivity.
Defined.

(** X23.  The worker is cache-first: a request outside [/proxy/] that
    the cache store matches is answered with the cached response,
    whatever the network does.  For the worker's own origin no fetch is
    made; for another origin the request is fetched once more in the
    background. *)
Theorem worker_serves_the_cached_response :
  forall (fetch : ServiceWorker.Request -> completion ServiceWorker.Response)
         (self_origin : jsstring)
         (caches_match : ServiceWorker.Request -> option ServiceWorker.Response)
         (request : ServiceWorker.Request) (cached : ServiceWorker.Response),
    startsWith (ServiceWorker.pathname request) (lit "/proxy/") = false ->
    caches_match request = Some cached ->
    snd (ServiceWorker.onfetch fetch self_origin caches_match request)
    = ServiceWorker.RespondWith (Normal cached)
    /\ (ServiceWorker.origin request = self_origin ->
        fst (ServiceWorker.onfetch fetch self_origin caches_match request)
        = [])
    /\ (ServiceWorker.origin request <> self_origin ->
        exists tr,
          fst (ServiceWorker.onfetch fetch self_origin caches_match request)
          = ServiceWorker.Fetch request :: tr
          /\ forall r, ~ In (ServiceWorker.Fetch r) tr).
Proof.
  intros fetch self_origin caches_match request cached Hp Hc.
  unfold ServiceWorker.onfetch, ServiceWorker.PROXY_ENDPOINT.
  rewrite Hp, Hc.
  destruct (eqb (ServiceWorker.origin request) self_origin) eqn:Ho;
    cbn [fst snd].
  - apply eqb_eq in Ho. repeat split. intros H. contradiction.
  - apply eqb_neq in Ho. split; [reflexivity|].
    split; [intros H; contradiction|]. intros _.
    destruct (fetchAndCache_spec fetch request)
      as (_ & [-> | [(e & _ & ->) | (resp & _ & _ & _ & ->)]]);
      eexists; (split; [reflexivity|]); intros r H; cbn [In] in H;
      decompose sum H; discriminate.
Qed.

Lemma worker_serves_the_cached_response_witness :
  snd (ServiceWorker.onfetch Cases.no_network (lit "https://app.example")
                             Cases.warm_cache Cases.cdn_request)
  = ServiceWorker.RespondWith (Normal Cases.stale_response)
  /\ fst (ServiceWorker.onfetch Cases.no_network (lit "https://app.example")
                                Cases.warm_cache Cases.own_request) = [].
Proof.
  destruct (worker_serves_the_cached_response
              Cases.no_network (lit "https://app.example") Cases.warm_cache
              Cases.cdn_request Cases.stale_response eq_refl eq_refl)
    as [Hcached _].
  destruct (worker_serves_the_cached_response
              Cases.no_network (lit "https://app.example") Cases.warm_cache
              Cases.own_request Cases.stale_response eq_refl eq_refl)
    as (_ & Hquiet & _).
  split; [exact Hcached | now apply Hquiet].
Defined.

(** X24.  On a miss the worker answers with what the network gives: a
    request outside [/proxy/] that the cache store does not match is
    fetched exactly once and the answer is the completion of that fetch,
    a rejection included. *)
Theorem worker_fetches_on_a_miss :
  forall (fetch : ServiceWorker.Request -> completion ServiceWorker.Response)
         (self_origin : jsstring)
         (caches_match : ServiceWorker.Request -> option ServiceWorker.Response)
         (request : ServiceWorker.Request),
    startsWith (ServiceWorker.pathname request) (lit "/proxy/") = false ->
    caches_match request = None ->
    snd (ServiceWorker.onfetch fetch self_origin caches_match request)
    = ServiceWorker.RespondWith (fetch request)
    /\ exists tr,
         fst (ServiceWorker.onfetch fetch self_origin caches_match request)
         = ServiceWorker.Fetch request :: tr
         /\ forall r, ~ In (ServiceWorker.Fetch r) tr.
Proof.
  intros fetch self_origin caches_match request Hp Hc.
  unfold ServiceWorker.onfetch, ServiceWorker.PROXY_ENDPOINT.
  rewrite Hp, Hc.
  destruct (eqb (ServiceWorker.origin request) self_origin); cbn [fst snd].
  - split; [reflexivity|]. exists []. split; [reflexivity|]. intros r [].
  - destruct (fetchAndCache_spec fetch request)
      as (-> & [-> | [(e & _ & ->) | (resp & _ & _ & _ & ->)]]);
      (split; [reflexivity|]); eexists; (split; [reflexivity|]);
      intros r H; cbn [In] in H; decompose sum H; discriminate.
Qed.

Lemma worker_fetches_on_a_miss_witness :
  snd (ServiceWorker.onfetch Cases.no_network (lit "https://app.example")
                             Cases.empty_cache Cases.cdn_request)
  = ServiceWorker.RespondWith
      (Throw (mkError TypeError (lit "Failed to fetch"))).
Proof.
  destruct (worker_fetches_on_a_miss
              Cases.no_network (lit "https://app.example") Cases.empty_cache
              Cases.cdn_request eq_refl eq_refl) as [Hanswer _].
  exact Hanswer.
Defined.

(** X25.  The [message] listener changes the cache store only on
    [CLEAR_CACHE], which empties it; it calls [skipWaiting] only on
    [SKIP_WAITING]; and it posts a version only on [GET_VERSION] to a
    port that is there, and that version is [1.0.0].  A message of any
    other type, or without data, does nothing. *)
Theorem worker_message_effects :
  forall (C : Type) (s : CacheStorage.t C) (data_type : option jsstring)
         (port : bool),
    (data_type = Some (lit "CLEAR_CACHE") ->
     fst (fst (ServiceWorker.onmessage s data_type port)) = [])
    /\ (data_type <> Some (lit "CLEAR_CACHE") ->
        fst (fst (ServiceWorker.onmessage s data_type port)) = s)
    /\ (In ServiceWorker.SkipWaiting
           (snd (fst (ServiceWorker.onmessage s data_type port)))
        <-> data_type = Some (lit "SKIP_WAITING"))
    /\ (forall v,
          In (ServiceWorker.PostVersion v)
             (snd (fst (ServiceWorker.onmessage s data_type port)))
          <-> v = lit "1.0.0" /\ data_type = Some (lit "GET_VERSION")
              /\ port = true)
    /\ (data_type <> Some (lit "SKIP_WAITING") ->
        data_type <> Some (lit "CLEAR_CACHE") ->
        data_type <> Some (lit "GET_VERSION") ->
        ServiceWorker.onmessage s data_type port = (s, [], Normal tt)).
Proof.
  intros C s data_type port. unfold ServiceWorker.onmessage.
  destruct data_type as [t|].
  - destruct (eqb t (lit "SKIP_WAITING")) eqn:Es;
      destruct (eqb t (lit "CLEAR_CACHE")) eqn:Ec;
      destruct (eqb t (lit "GET_VERSION")) eqn:Eg;
      repeat match goal with
             | H : eqb _ _ = true |- _ => apply eqb_eq in H
             | H : eqb _ _ = false |- _ => apply eqb_neq in H
             end; subst; try discriminate;
      destruct port; cbn [fst snd app andb In];
      rewrite ?delete_every_key;
      repeat split; intros; try congruence;
      repeat match goal with
             | H : _ \/ _ |- _ => destruct H
             | H : _ /\ _ |- _ => destruct H
             | H : False |- _ => destruct H
             | H : ServiceWorker.PostVersion _ = _ |- _ => injection H as H
             | H : _ = ServiceWorker.PostVersion _ |- _ => injection H as H
             end; subst; try discriminate; try congruence;
      try (exfalso; congruence); auto.
  - cbn. repeat split; intros; try congruence;
      repeat match goal with
             | H : _ /\ _ |- _ => destruct H
             | H : False |- _ => destruct H
             end; try discriminate.
Qed.
